(** * Stock bookkeeping of the sound-equipment inventory: route handlers

    A shallow embedding of the API route handlers that move equipment stock
    (event create / update / delete, damaged-equipment report / repair) and of
    the cookie authentication wrapper, together with the properties of
    the stock bookkeeping they implement.

    Conventions.
    - The database is a record of tables.  Tables addressed by primary key
      are finite maps from the (textual) id; the [EquipmentEvent] join table
      is a list of rows, because [findMany] returns rows in table order
      and the handlers go through them in that order.
    - A handler is a computation over the database that either returns a
      value or throws; [transaction] rolls the database back when its body
      throws, exactly like [prisma.$transaction].
    - Values chosen by the environment (generated primary keys, the clock)
      are arguments of the handlers.
    - The column type of [stock] is declared in the Prisma schema, which is
      not among the sources: stock is an unbounded integer.  The [quantity]
      columns are INTEGER in the migrations; a quantity reaches a row
      either after the handler has checked it against the stock, or, in
      the update of a damage report, straight from the body, and there the
      write fails when the value does not fit the column.
    - The migrations put a unique index on the pair (equipment, event) of
      the [EquipmentEvent] rows; [createMany] enforces it. *)

From stdpp Require Import gmap strings list fin_maps.
From Stdlib Require Import ZArith Ascii.

Local Open Scope Z_scope.

(** ** Data model *)

Inductive RepairStatus := pending | in_progress | completed.

Inductive EventStatus := upcoming | ongoing | event_completed.

#[global] Instance RepairStatus_eq_dec : EqDecision RepairStatus.
Proof. solve_decision. Defined.

Record Equipment := {
  name : string;
  category : string;
  stock : Z;
}.

(** [event_status] is [None] as long as the column keeps the default of the
    schema: the create handler never writes it. *)
Record Event := {
  title : string;
  description : string;
  date : Z;
  location : string;
  event_status : option EventStatus;
}.

Record EquipmentEvent := {
  eventId : string;
  equipmentId : string;
  quantity : Z;
}.

Record DamagedEquipment := {
  dmg_equipmentId : string;
  dmg_quantity : Z;
  dmg_description : option string;
  repairStatus : RepairStatus;
  reportedAt : Z;
  repairedAt : option Z;
}.

Record DB := {
  equipments : gmap string Equipment;
  events : gmap string Event;
  equipmentEvent : list EquipmentEvent;
  damagedEquipment : gmap string DamagedEquipment;
}.

(** ** Responses and exceptions *)

Inductive Message :=
| Text (s : string)
| EquipmentNotFound (id : string)
| InsufficientStock (equipmentName : string) (available requested : Z)
| StockAvailable (available : Z)
| EventsDeleted (n : nat).

Inductive Data :=
| EventData (e : option (Event * list (EquipmentEvent * option Equipment)))
| DamagedData (d : DamagedEquipment * option Equipment).

Record Response := {
  status : Z;
  message : Message;
  data : option Data;
}.

Definition json (m : Message) (s : Z) : Response :=
  {| status := s; message := m; data := None |}.

Definition json_data (m : Message) (d : Data) (s : Z) : Response :=
  {| status := s; message := m; data := Some d |}.

(** What a handler can throw: a zod validation error, a plain [Error]
    raised with [throw new Error(...)], a Prisma request error carrying
    its code ([PrismaClientKnownRequestError]), or a request error the
    client does not know ([PrismaClientUnknownRequestError]), as raised
    for a number that does not fit its column.  All are instances of the
    JavaScript class [Error]. *)
Inductive Exn :=
| ZodError
| JsError (m : Message)
| PrismaError (code : string)
| UnknownRequestError.

Definition instanceof_Error (e : Exn) : bool :=
  match e with
  | ZodError => true
  | JsError _ => true
  | PrismaError _ => true
  | UnknownRequestError => true
  end.

Definition instanceof_ZodError (e : Exn) : bool :=
  match e with
  | ZodError => true
  | _ => false
  end.

(** ** The monad of database computations *)

Inductive result (A : Type) :=
| Ok (a : A)
| Throw (e : Exn).

Arguments Ok {A} a.
Arguments Throw {A} e.

(** The database reached is kept when a computation throws: outside a
    transaction every Prisma call commits on its own. *)
Definition M (A : Type) : Type := DB -> result A * DB.

Definition ret {A} (a : A) : M A := fun db => (Ok a, db).

Definition throw {A} (e : Exn) : M A := fun db => (Throw e, db).

Definition bind {A B} (c : M A) (k : A -> M B) : M B :=
  fun db =>
    match c db with
    | (Ok a, db') => k a db'
    | (Throw e, db') => (Throw e, db')
    end.

Notation "'await' x <- c ; k" := (bind c (fun x => k))
  (at level 10, x name, c at level 100, k at level 200,
   format "'[v' 'await'  x  <-  c ; '/' k ']'").

(** [try { c } catch (error) { h error }] where every branch of the
    handler returns a response. *)
Definition try_catch (c : M Response) (h : Exn -> Response) : DB -> Response * DB :=
  fun db =>
    match c db with
    | (Ok r, db') => (r, db')
    | (Throw e, db') => (h e, db')
    end.

(** [prisma.$transaction(async (tx) => body)]: commit when the body
    returns, roll back and rethrow when it throws. *)
Definition transaction {A} (body : M A) : M A :=
  fun db =>
    match body db with
    | (Ok a, db') => (Ok a, db')
    | (Throw e, _) => (Throw e, db)
    end.

(** [for (const x of l) { await f(x) }] *)
Fixpoint forEach {A} (l : list A) (f : A -> M unit) : M unit :=
  match l with
  | [] => ret tt
  | x :: l' => await _ <- f x; forEach l' f
  end.

(** ** Prisma operations *)

Inductive StockUpdate :=
| increment (n : Z)
| decrement (n : Z).

Definition delta (u : StockUpdate) : Z :=
  match u with
  | increment n => n
  | decrement n => - n
  end.

Definition add_stock (d : Z) (e : Equipment) : Equipment :=
  {| name := name e; category := category e; stock := stock e + d |}.

Definition set_equipments (m : gmap string Equipment) (db : DB) : DB :=
  {| equipments := m; events := events db;
     equipmentEvent := equipmentEvent db;
     damagedEquipment := damagedEquipment db |}.

Definition set_events (m : gmap string Event) (db : DB) : DB :=
  {| equipments := equipments db; events := m;
     equipmentEvent := equipmentEvent db;
     damagedEquipment := damagedEquipment db |}.

Definition set_equipmentEvent (l : list EquipmentEvent) (db : DB) : DB :=
  {| equipments := equipments db; events := events db;
     equipmentEvent := l;
     damagedEquipment := damagedEquipment db |}.

Definition set_damagedEquipment (m : gmap string DamagedEquipment) (db : DB) : DB :=
  {| equipments := equipments db; events := events db;
     equipmentEvent := equipmentEvent db;
     damagedEquipment := m |}.

(** The range of an INTEGER column. *)
Definition int4 (n : Z) : bool := (-2147483648 <=? n) && (n <=? 2147483647).

(** The pair the unique index of [EquipmentEvent] is on. *)
Definition row_key (r : EquipmentEvent) : string * string :=
  (equipmentId r, eventId r).

(** The object [updateData] the update handler assembles. *)
Module updateData.
Record t := {
  quantity : option Z;
  description : option string;
  repairStatus : option RepairStatus;
  repairedAt : option Z;
}.
End updateData.

(** The effect of [data: updateData] on a row: fields left undefined keep
    their value. *)
Definition apply_updateData (u : updateData.t) (d : DamagedEquipment) : DamagedEquipment :=
  {| dmg_equipmentId := dmg_equipmentId d;
     dmg_quantity := default (dmg_quantity d) (updateData.quantity u);
     dmg_description :=
       match updateData.description u with
       | Some s => Some s
       | None => dmg_description d
       end;
     repairStatus := default (repairStatus d) (updateData.repairStatus u);
     reportedAt := reportedAt d;
     repairedAt :=
       match updateData.repairedAt u with
       | Some t => Some t
       | None => repairedAt d
       end |}.

Module prisma.

(** [equipments.findUnique({ where: { id } })] *)
Definition equipments_findUnique (id : string) : M (option Equipment) :=
  fun db => (Ok (equipments db !! id), db).

(** [equipments.update({ where: { id }, data: { stock: u } })]; Prisma
    raises P2025 when no row has the id. *)
Definition equipments_update (id : string) (u : StockUpdate) : M unit :=
  fun db =>
    match equipments db !! id with
    | Some e => (Ok tt, set_equipments (<[id := add_stock (delta u) e]> (equipments db)) db)
    | None => (Throw (PrismaError "P2025"), db)
    end.

Definition events_findUnique (id : string) : M (option Event) :=
  fun db => (Ok (events db !! id), db).

(** [events.findUnique] with
    [include: { EquipmentEvent: { include: { equipment: true } } }] *)
Definition events_findUnique_include (id : string)
  : M (option (Event * list (EquipmentEvent * option Equipment))) :=
  fun db =>
    (Ok (match events db !! id with
         | Some ev =>
             Some (ev, map (fun r => (r, equipments db !! equipmentId r))
                           (filter (fun r => eventId r = id) (equipmentEvent db)))
         | None => None
         end), db).

(** [events.create]; the primary key [id] is the one the column default
    generates, and a key already in the table violates uniqueness. *)
Definition events_create (id : string) (ev : Event) : M Event :=
  fun db =>
    match events db !! id with
    | Some _ => (Throw (PrismaError "P2002"), db)
    | None => (Ok ev, set_events (<[id := ev]> (events db)) db)
    end.

Definition events_update (id : string) (f : Event -> Event) : M Event :=
  fun db =>
    match events db !! id with
    | Some ev => (Ok (f ev), set_events (<[id := f ev]> (events db)) db)
    | None => (Throw (PrismaError "P2025"), db)
    end.

(** Deleting an event deletes its [EquipmentEvent] rows: the foreign key
    on [eventId] is declared ON DELETE CASCADE in the migration. *)
Definition events_delete (id : string) : M unit :=
  fun db =>
    match events db !! id with
    | Some _ =>
        (Ok tt,
         set_equipmentEvent (filter (fun r => eventId r <> id) (equipmentEvent db))
           (set_events (delete id (events db)) db))
    | None => (Throw (PrismaError "P2025"), db)
    end.

(** [events.deleteMany({ where: { id: { in: ids } } })], with the same
    cascade. *)
Definition events_deleteMany (ids : list string) : M unit :=
  fun db =>
    (Ok tt,
     set_equipmentEvent (filter (fun r => eventId r ∉ ids) (equipmentEvent db))
       (set_events (filter (fun kv => kv.1 ∉ ids) (events db)) db)).

Definition equipmentEvent_findMany (id : string) : M (list EquipmentEvent) :=
  fun db => (Ok (filter (fun r => eventId r = id) (equipmentEvent db)), db).

Definition equipmentEvent_deleteMany (id : string) : M unit :=
  fun db =>
    (Ok tt, set_equipmentEvent (filter (fun r => eventId r <> id) (equipmentEvent db)) db).

(** [equipmentEvent.createMany({ data: rows })]; a row naming an
    equipment that does not exist violates the foreign key (P2003), and
    two rows for the same equipment and event, among the new ones or
    with one in the table, violate the unique index (P2002). *)
Definition equipmentEvent_createMany (rows : list EquipmentEvent) : M unit :=
  fun db =>
    if decide (Forall (fun r => is_Some (equipments db !! equipmentId r)) rows)
    then
      if decide (NoDup (map row_key rows)
                 /\ Forall (fun r => row_key r ∉ map row_key (equipmentEvent db)) rows)
      then (Ok tt, set_equipmentEvent (equipmentEvent db ++ rows) db)
      else (Throw (PrismaError "P2002"), db)
    else (Throw (PrismaError "P2003"), db).

(** The damaged-equipment calls all carry [include: { equipment: true }]:
    they return the record together with its equipment. *)
Definition damagedEquipment_findUnique (id : string) : M (option DamagedEquipment) :=
  fun db => (Ok (damagedEquipment db !! id), db).

(** [damagedEquipment.create]: a key already present violates
    uniqueness (P2002), an unknown equipment the foreign key (P2003). *)
Definition damagedEquipment_create (id : string) (d : DamagedEquipment)
  : M (DamagedEquipment * option Equipment) :=
  fun db =>
    match damagedEquipment db !! id with
    | Some _ => (Throw (PrismaError "P2002"), db)
    | None =>
        match equipments db !! dmg_equipmentId d with
        | Some e => (Ok (d, Some e),
                     set_damagedEquipment (<[id := d]> (damagedEquipment db)) db)
        | None => (Throw (PrismaError "P2003"), db)
        end
    end.

(** [damagedEquipment.update({ where: { id }, data })]: P2025 when no
    row has the id; the write fails, the row staying as it is, when
    [data] carries a quantity that does not fit the INTEGER column. *)
Definition damagedEquipment_update (id : string) (data : updateData.t)
  : M (DamagedEquipment * option Equipment) :=
  fun db =>
    match damagedEquipment db !! id with
    | Some d =>
        if from_option int4 true (updateData.quantity data)
        then (Ok (apply_updateData data d, equipments db !! dmg_equipmentId d),
              set_damagedEquipment
                (<[id := apply_updateData data d]> (damagedEquipment db)) db)
        else (Throw UnknownRequestError, db)
    | None => (Throw (PrismaError "P2025"), db)
    end.

(** [damagedEquipment.delete({ where: { id } })] *)
Definition damagedEquipment_delete (id : string) : M unit :=
  fun db =>
    match damagedEquipment db !! id with
    | Some _ => (Ok tt, set_damagedEquipment (delete id (damagedEquipment db)) db)
    | None => (Throw (PrismaError "P2025"), db)
    end.

End prisma.

(** ** Request bodies of the event routes *)

Module item.
Record t := { equipmentId : string; quantity : Z }.
End item.

(** The JSON body as received.  [date] holds [Date.parse] of the date
    string, with [None] for NaN. *)
Module body.
Record t := {
  title : string;
  description : string;
  date : option Z;
  location : string;
  status : option EventStatus;
  equipments : option (list item.t);
}.
End body.

(** The value returned by [EventSchema.parse]. *)
Module validated.
Record t := {
  title : string;
  description : string;
  date : Z;
  location : string;
  status : option EventStatus;
  equipments : option (list item.t);
}.
End validated.

(** [z.string().min(1)] *)
Definition min1 (s : string) : bool :=
  match s with
  | EmptyString => false
  | String _ _ => true
  end.

(** The array schema of [equipments]: every [quantity] is [min(1)]. *)
Definition equipments_schema (l : option (list item.t)) : bool :=
  match l with
  | None => true
  | Some items => forallb (fun it => 1 <=? item.quantity it) items
  end.

Definition error_message (e : Exn) : Message :=
  match e with
  | ZodError => Text "ZodError"
  | JsError m => m
  | PrismaError code => Text code
  | UnknownRequestError => Text "Unable to fit integer value"
  end.

(** The row written for a list entry. *)
Definition row (id : string) (it : item.t) : EquipmentEvent :=
  {| eventId := id; equipmentId := item.equipmentId it; quantity := item.quantity it |}.

(** The three loops over the requested list; the create and the update
    handler contain the same text.

    "Validate stock availability for each equipment" *)
Definition validate_stock (items : list item.t) : M unit :=
  forEach items (fun it =>
    await equipment <- prisma.equipments_findUnique (item.equipmentId it);
    match equipment with
    | None => throw (JsError (EquipmentNotFound (item.equipmentId it)))
    | Some equipment =>
        if stock equipment <? item.quantity it
        then throw (JsError (InsufficientStock (name equipment) (stock equipment)
                                               (item.quantity it)))
        else ret tt
    end).

(** "Decrease stock for each equipment" *)
Definition decrease_stock (items : list item.t) : M unit :=
  forEach items (fun it =>
    prisma.equipments_update (item.equipmentId it) (decrement (item.quantity it))).

(** "Restore stock for each equipment" (update and delete handlers) *)
Definition restore_stock (rows : list EquipmentEvent) : M unit :=
  forEach rows (fun r =>
    prisma.equipments_update (equipmentId r) (increment (quantity r))).

(** [s.split(sep)] for a one-character separator. *)
Fixpoint split_on (sep : ascii) (s : string) : list string :=
  match s with
  | EmptyString => [EmptyString]
  | String c s' =>
      if Ascii.eqb c sep then EmptyString :: split_on sep s'
      else match split_on sep s' with
           | w :: ws => String c w :: ws
           | [] => [String c EmptyString]
           end
  end.

(** [parts.join(sep)] *)
Fixpoint join (sep : ascii) (parts : list string) : string :=
  match parts with
  | [] => EmptyString
  | [w] => w
  | w :: ws => String.append w (String sep (join sep ws))
  end.

(** [s.split(",")] *)
Fixpoint split_comma (s : string) : list string :=
  match s with
  | EmptyString => [EmptyString]
  | String c s' =>
      if Ascii.eqb c ","%char then EmptyString :: split_comma s'
      else match split_comma s' with
           | w :: ws => String c w :: ws
           | [] => [String c EmptyString]
           end
  end.

(** ** /api/events: the handlers POST and DELETE (bulk) *)

Module EventsRoute.

(** The schema: the validated value, or [None] when an issue is found.
    This schema has no [status] key, so the parsed value has none. *)
Definition EventSchema (b : body.t) : option validated.t :=
  if min1 (body.title b) && min1 (body.description b) && min1 (body.location b)
     && equipments_schema (body.equipments b)
  then match body.date b with
       | Some d =>
           Some {| validated.title := body.title b;
                   validated.description := body.description b;
                   validated.date := d;
                   validated.location := body.location b;
                   validated.status := None;
                   validated.equipments := body.equipments b |}
       | None => None
       end
  else None.

(** [EventSchema.parse(body)] *)
Definition EventSchema_parse (b : body.t) : M validated.t :=
  match EventSchema b with
  | Some validatedData => ret validatedData
  | None => throw ZodError
  end.

(** The callback passed to [prisma.$transaction]. *)
Definition POST_tx (newId : string) (validatedData : validated.t)
  : M (option (Event * list (EquipmentEvent * option Equipment))) :=
  await newEvent <- prisma.events_create newId
                      {| title := validated.title validatedData;
                         description := validated.description validatedData;
                         date := validated.date validatedData;
                         location := validated.location validatedData;
                         event_status := None |};
  await _ <- match validated.equipments validatedData with
             | Some ((_ :: _) as items) =>
                 await _ <- validate_stock items;
                 await _ <- prisma.equipmentEvent_createMany (map (row newId) items);
                 decrease_stock items
             | _ => ret tt
             end;
  prisma.events_findUnique_include newId.

Definition POST (newId : string) (b : body.t) : DB -> Response * DB :=
  try_catch
    (await validatedData <- EventSchema_parse b;
     await event <- transaction (POST_tx newId validatedData);
     ret (json_data (Text "Event berhasil dibuat") (EventData event) 201))
    (fun error =>
       if instanceof_ZodError error then json (Text "Validasi gagal") 400
       else if instanceof_Error error then json (error_message error) 400
       else json (Text "Gagal membuat event") 500).

(** Bulk delete; [ids] is the query parameter, [None] when absent. *)
Definition DELETE (ids : option string) : DB -> Response * DB :=
  try_catch
    (let ids := match ids with
                | Some s => split_comma s
                | None => []
                end in
     if (length ids =? 0)%nat
     then ret (json (Text "Tidak ada event yang dipilih untuk dihapus") 400)
     else
       await _ <- prisma.events_deleteMany ids;
       ret (json (EventsDeleted (length ids)) 200))
    (fun _ => json (Text "Gagal menghapus event") 500).

End EventsRoute.

(** ** /api/events/[id]: the handlers PUT and DELETE *)

Module EventIdRoute.

(** The schema: the validated value, or [None] when an issue is found. *)
Definition EventSchema (b : body.t) : option validated.t :=
  if min1 (body.title b) && min1 (body.description b) && min1 (body.location b)
     && equipments_schema (body.equipments b)
  then match body.date b with
       | Some d =>
           Some {| validated.title := body.title b;
                   validated.description := body.description b;
                   validated.date := d;
                   validated.location := body.location b;
                   validated.status := body.status b;
                   validated.equipments := body.equipments b |}
       | None => None
       end
  else None.

(** [EventSchema.parse(body)] *)
Definition EventSchema_parse (b : body.t) : M validated.t :=
  match EventSchema b with
  | Some validatedData => ret validatedData
  | None => throw ZodError
  end.

Definition PUT_tx (id : string) (validatedData : validated.t)
  : M (option (Event * list (EquipmentEvent * option Equipment))) :=
  await updatedEvent <- prisma.events_update id (fun old =>
                      {| title := validated.title validatedData;
                         description := validated.description validatedData;
                         date := validated.date validatedData;
                         location := validated.location validatedData;
                         event_status :=
                           match validated.status validatedData with
                           | Some s => Some s
                           | None => event_status old
                           end |});
  await _ <- match validated.equipments validatedData with
             | Some items =>
                 await oldEquipmentEvents <- prisma.equipmentEvent_findMany id;
                 await _ <- prisma.equipmentEvent_deleteMany id;
                 await _ <- restore_stock oldEquipmentEvents;
                 match items with
                 | _ :: _ =>
                     await _ <- validate_stock items;
                     await _ <- prisma.equipmentEvent_createMany (map (row id) items);
                     decrease_stock items
                 | [] => ret tt
                 end
             | None => ret tt
             end;
  prisma.events_findUnique_include id.

Definition PUT (id : string) (b : body.t) : DB -> Response * DB :=
  try_catch
    (await validatedData <- EventSchema_parse b;
     await existingEvent <- prisma.events_findUnique id;
     match existingEvent with
     | None => ret (json (Text "Event tidak ditemukan") 404)
     | Some _ =>
         await event <- transaction (PUT_tx id validatedData);
         ret (json_data (Text "Event berhasil diperbarui") (EventData event) 200)
     end)
    (fun error =>
       if instanceof_ZodError error then json (Text "Validasi gagal") 400
       else if instanceof_Error error then json (error_message error) 400
       else json (Text "Gagal memperbarui event") 500).

Definition DELETE_tx (id : string) : M unit :=
  await equipmentEvents <- prisma.equipmentEvent_findMany id;
  await _ <- restore_stock equipmentEvents;
  prisma.events_delete id.

Definition DELETE (id : string) : DB -> Response * DB :=
  try_catch
    (await existingEvent <- prisma.events_findUnique id;
     match existingEvent with
     | None => ret (json (Text "Event tidak ditemukan") 404)
     | Some _ =>
         await _ <- transaction (DELETE_tx id);
         ret (json (Text "Event berhasil dihapus") 200)
     end)
    (fun _ => json (Text "Gagal menghapus event") 500).

End EventIdRoute.

(** ** Damaged-equipment routes *)

(** What [handlePrismaError] ([lib/prisma-error-handler]) returns for an
    exception it recognises: it builds its answer from the code and the
    metadata of a known request error and answers null for anything
    else.  The handlers take it as a parameter, so what is proved of them
    holds whatever it answers. *)
Record PrismaErrorInfo := {
  pe_message : Message;
  pe_field : option string;
  pe_code : string;
}.

Module report.
Record t := { equipmentId : string; quantity : Z; description : option string }.
End report.

Module update.
Record t := {
  quantity : option Z;
  description : option string;
  repairStatus : option RepairStatus;
}.
End update.

(** The [catch] block shared by the damaged-equipment handlers. *)
Definition prisma_catch (handlePrismaError : Exn -> option PrismaErrorInfo)
    (fallback : string) (err : Exn) : Response :=
  match handlePrismaError err with
  | Some prismaError =>
      json (pe_message prismaError)
           (if String.eqb (pe_code prismaError) "P2002" then 409 else 400)
  | None => json (Text fallback) 500
  end.

(** *** /api/damaged-equipments ([app/api/damaged-equipments/route.ts]) *)

Module DamagedRoute.
Section handlers.
Variable handlePrismaError : Exn -> option PrismaErrorInfo.

Definition DamagedEquipmentSchema_safeParse (b : report.t) : bool :=
  min1 (report.equipmentId b) && (1 <=? report.quantity b).

Definition POST (newId : string) (now : Z) (b : report.t) : DB -> Response * DB :=
  try_catch
    (if negb (DamagedEquipmentSchema_safeParse b)
     then ret (json (Text "Validation failed") 400)
     else
       await equipment <- prisma.equipments_findUnique (report.equipmentId b);
       match equipment with
       | None => ret (json (Text "Equipment tidak ditemukan") 404)
       | Some equipment =>
           if stock equipment <? report.quantity b
           then ret (json (StockAvailable (stock equipment)) 400)
           else
             await damagedEquipment <-
               prisma.damagedEquipment_create newId
                 {| dmg_equipmentId := report.equipmentId b;
                    dmg_quantity := report.quantity b;
                    dmg_description :=
                      match report.description b with
                      | Some s => if min1 s then Some s else None
                      | None => None
                      end;
                    repairStatus := pending;
                    reportedAt := now;
                    repairedAt := None |};
             ret (json_data (Text "Equipment rusak berhasil dilaporkan")
                            (DamagedData damagedEquipment) 201)
       end)
    (prisma_catch handlePrismaError
       "Terjadi kesalahan saat melaporkan equipment rusak").
End handlers.
End DamagedRoute.

(** *** /api/damaged-equipments/[id] ([app/api/damaged-equipments/[id]/route.ts]) *)

Module DamagedIdRoute.
Section handlers.
Variable handlePrismaError : Exn -> option PrismaErrorInfo.

Definition UpdateDamagedEquipmentSchema_safeParse (b : update.t) : bool :=
  match update.quantity b with
  | Some q => 1 <=? q
  | None => true
  end.

Definition PUT (id : string) (now : Z) (b : update.t) : DB -> Response * DB :=
  try_catch
    (if negb (UpdateDamagedEquipmentSchema_safeParse b)
     then ret (json (Text "Validation failed") 400)
     else
       await existing <- prisma.damagedEquipment_findUnique id;
       match existing with
       | None => ret (json (Text "Data equipment rusak tidak ditemukan") 404)
       | Some existing =>
           let updateData :=
             {| updateData.quantity := update.quantity b;
                updateData.description := update.description b;
                updateData.repairStatus := update.repairStatus b;
                updateData.repairedAt := None |} in
           await updateData <-
             match update.repairStatus b with
             | Some completed =>
                 await _ <- prisma.equipments_update (dmg_equipmentId existing)
                              (increment (dmg_quantity existing));
                 ret {| updateData.quantity := updateData.quantity updateData;
                        updateData.description := updateData.description updateData;
                        updateData.repairStatus := updateData.repairStatus updateData;
                        updateData.repairedAt := Some now |}
             | _ => ret updateData
             end;
           await damagedEquipment <-
             prisma.damagedEquipment_update id updateData;
           ret (json_data (Text "Equipment rusak berhasil diupdate")
                          (DamagedData damagedEquipment) 200)
       end)
    (prisma_catch handlePrismaError
       "Terjadi kesalahan saat mengupdate equipment rusak").

(** The [catch] block of the read and the delete handler answers 400
    for every Prisma error. *)
Definition catch_400 (fallback : string) (err : Exn) : Response :=
  match handlePrismaError err with
  | Some prismaError => json (pe_message prismaError) 400
  | None => json (Text fallback) 500
  end.

Definition DELETE (id : string) : DB -> Response * DB :=
  try_catch
    (await existing <- prisma.damagedEquipment_findUnique id;
     match existing with
     | None => ret (json (Text "Data equipment rusak tidak ditemukan") 404)
     | Some _ =>
         await _ <- prisma.damagedEquipment_delete id;
         ret (json (Text "Data equipment rusak berhasil dihapus") 200)
     end)
    (catch_400 "Terjadi kesalahan saat menghapus data equipment rusak").
End handlers.
End DamagedIdRoute.

(** ** Authentication wrapper ([lib/auth-middleware.ts], [lib/jwt.ts]) *)

Module Auth.

Record JWTPayload := {
  sub : string;
  email : option string;
  role : option string;
  userId : option Z;
}.

Record NextRequest := { cookies : gmap string string }.

Module user.
Record t := { userId : Z; email : option string; role : option string }.
End user.

Section jwt.
(** [process.env.JWT_SECRET] and jose's [jwtVerify], which answers
    [None] when it throws. *)
Variable JWT_SECRET : option string.
Variable jwtVerify : string -> string -> option JWTPayload.

Definition getSecret : option string :=
  match JWT_SECRET with
  | Some secret => if min1 secret then Some secret else None
  | None => None
  end.

(** [getSecret] throws inside the [try]: the result is [null]. *)
Definition verifyToken (token : string) : option JWTPayload :=
  match getSecret with
  | Some secret => jwtVerify token secret
  | None => None
  end.

(** [!token] holds of the empty string, [!verified.userId] of 0. *)
Definition authenticateRequest (request : NextRequest) : option user.t :=
  match cookies request !! "jwt-access-token" with
  | None => None
  | Some token =>
      if negb (min1 token) then None
      else match verifyToken token with
           | None => None
           | Some verified =>
               match userId verified with
               | None => None
               | Some uid =>
                   if uid =? 0 then None
                   else Some {| user.userId := uid;
                                user.email := email verified;
                                user.role := role verified |}
               end
           end
  end.

(** The wrapped handler acts on some state [World]; the wrapper
    passes the state through untouched when it answers itself. *)
Definition withAuth {World : Type}
    (handler : NextRequest -> user.t -> World -> Response * World)
  : NextRequest -> World -> Response * World :=
  fun request w =>
    match authenticateRequest request with
    | None => (json (Text "Unauthorized - Please login") 401, w)
    | Some auth => handler request auth w
    end.

(** The same wrapper for routes that need the admin role. *)
Definition withAdmin {World : Type}
    (handler : NextRequest -> user.t -> World -> Response * World)
  : NextRequest -> World -> Response * World :=
  fun request w =>
    match authenticateRequest request with
    | None => (json (Text "Unauthorized - Please login") 401, w)
    | Some auth =>
        match user.role auth with
        | Some "admin" => handler request auth w
        | _ => (json (Text "Forbidden - Admin access required") 403, w)
        end
    end.
End jwt.

(** [extractToken]: the token of an ["Authorization: Bearer <token>"]
    header. *)
Definition extractToken (authHeader : option string) : option string :=
  match authHeader with
  | None => None
  | Some h =>
      if negb (min1 h) then None
      else match split_on " " h with
           | [scheme; token] => if String.eqb scheme "Bearer" then Some token else None
           | _ => None
           end
  end.
End Auth.

(** ** The request proxy (the middleware in front of every page) *)

Module Proxy.

Record NextRequest := {
  pathname : string;
  cookies : gmap string string;
  headers : gmap string string;
}.

(** What the proxy answers: a redirect to a path of the site, possibly
    with a [callbackUrl] query parameter and with the token cookie
    deleted, or [NextResponse.next], possibly with the request headers
    replaced. *)
Inductive NextResponse :=
| redirect (path : string) (callbackUrl : option string) (deleteCookie : bool)
| next (requestHeaders : option (gmap string string)).

Definition publicRoutes : list string := ["/login"; "/register"].

Definition authRoutes : list string := ["/login"; "/register"].

(** [publicRoutes.some((route) => pathname.startsWith(route))] *)
Definition isPublicRoute (pathname : string) : bool :=
  existsb (fun route => String.prefix route pathname) publicRoutes.

Definition isAuthRoute (pathname : string) : bool :=
  existsb (fun route => String.prefix route pathname) authRoutes.

(** The cookie value as the tests [token] and [!token] see it: an empty
    value counts as no token. *)
Definition token (request : NextRequest) : option string :=
  match cookies request !! "jwt-access-token" with
  | Some t => if min1 t then Some t else None
  | None => None
  end.

Section proxy.
(** Besides the secret and jose's [jwtVerify], JavaScript's [String]
    on numbers. *)
Variable JWT_SECRET : option string.
Variable jwtVerify : string -> string -> option Auth.JWTPayload.
Variable String_of_number : Z -> string.

Definition verifyTokenInline (token : string) : option Auth.JWTPayload :=
  match JWT_SECRET with
  | Some secret => if min1 secret then jwtVerify token secret else None
  | None => None
  end.

(** The headers handed to the route: the request's own, with the
    user id and the role of the payload set when they are truthy. *)
Definition requestHeaders (request : NextRequest) (verified : Auth.JWTPayload)
  : gmap string string :=
  let h := headers request in
  let h :=
    match Auth.userId verified with
    | Some uid => if uid =? 0 then h else <["x-user-id" := String_of_number uid]> h
    | None => h
    end in
  match Auth.role verified with
  | Some r => if min1 r then <["x-user-role" := r]> h else h
  | None => h
  end.

Definition proxy (request : NextRequest) : NextResponse :=
  let pathname := pathname request in
  let token := token request in
  if String.eqb pathname "/" then
    match token with
    | Some t =>
        match verifyTokenInline t with
        | Some _ => redirect "/dashboard" None false
        | None => redirect "/login" None false
        end
    | None => redirect "/login" None false
    end
  else
    match (if isAuthRoute pathname
           then match token with
                | Some t => verifyTokenInline t
                | None => None
                end
           else None) with
    | Some _ => redirect "/dashboard" None false
    | None =>
        if negb (isPublicRoute pathname) then
          match token with
          | None => redirect "/login" (Some pathname) false
          | Some t =>
              match verifyTokenInline t with
              | None => redirect "/login" None true
              | Some verified => next (Some (requestHeaders request verified))
              end
          end
        else next None
    end.
End proxy.
End Proxy.

(** ** Quantities used in the statements *)

(** Total of [val] over the entries of [l] whose key is [id]. *)
Definition sum_for {A} (key : A -> string) (val : A -> Z) (id : string) (l : list A) : Z :=
  foldr (fun x acc => if decide (key x = id) then val x + acc else acc) 0 l.

(** Quantity of equipment [id] requested by a list of entries. *)
Definition requested (id : string) (items : list item.t) : Z :=
  sum_for item.equipmentId item.quantity id items.

(** Quantity of equipment [id] held by a list of rows. *)
Definition reserved (id : string) (rows : list EquipmentEvent) : Z :=
  sum_for equipmentId quantity id rows.

(** The rows of one event, in table order. *)
Definition rows_of (id : string) (db : DB) : list EquipmentEvent :=
  filter (fun r => eventId r = id) (equipmentEvent db).


(** The entry names an existing equipment with enough stock. *)
Definition in_stock (db : DB) (it : item.t) : Prop :=
  match equipments db !! item.equipmentId it with
  | Some e => item.quantity it <= stock e
  | None => False
  end.

(** The entry names no equipment, or asks for more than its stock. *)
Definition unavailable (db : DB) (it : item.t) : Prop :=
  match equipments db !! item.equipmentId it with
  | Some e => stock e < item.quantity it
  | None => True
  end.

(** Referential integrity of a row. *)
Definition refers (db : DB) (r : EquipmentEvent) : Prop :=
  is_Some (equipments db !! equipmentId r).

(** The three steps "validate, create the rows, decrease the stock" as the
    create and the update handler run them on a non-empty list. *)
Definition reserve (id : string) (items : list item.t) : M unit :=
  await _ <- validate_stock items;
  await _ <- prisma.equipmentEvent_createMany (map (row id) items);
  decrease_stock items.

(** The entry names an existing equipment whose stock, once the old rows
    of the event are given back, covers the request. *)
Definition available_for (db : DB) (old : list EquipmentEvent) (it : item.t) : Prop :=
  match equipments db !! item.equipmentId it with
  | Some e => item.quantity it <= stock e + reserved (item.equipmentId it) old
  | None => False
  end.

(** [n] completion requests in a row, one per clock reading. *)
Definition repeat_PUT (handlePrismaError : Exn -> option PrismaErrorInfo)
    (id : string) (b : update.t) (times : list Z) (db : DB) : DB :=
  foldl (fun db now => (DamagedIdRoute.PUT handlePrismaError id now b db).2) db times.

(** The chain pending, in_progress, completed. *)
Definition successor (s : RepairStatus) : option RepairStatus :=
  match s with
  | pending => Some in_progress
  | in_progress => Some completed
  | completed => None
  end.

(** The record a damage report writes. *)
Definition reported (now : Z) (b : report.t) : DamagedEquipment :=
  {| dmg_equipmentId := report.equipmentId b;
     dmg_quantity := report.quantity b;
     dmg_description :=
       match report.description b with
       | Some s => if min1 s then Some s else None
       | None => None
       end;
     repairStatus := pending;
     reportedAt := now;
     repairedAt := None |}.

(** The object [updateData] at the point where the row is written:
    [repairedAt] is the clock reading when the body asks for completed. *)
Definition updateData_of (now : Z) (b : update.t) : updateData.t :=
  {| updateData.quantity := update.quantity b;
     updateData.description := update.description b;
     updateData.repairStatus := update.repairStatus b;
     updateData.repairedAt :=
       match update.repairStatus b with
       | Some completed => Some now
       | _ => None
       end |}.

(** The quantity the body carries, if any, fits the INTEGER column. *)
Definition quantity_fits (b : update.t) : bool :=
  from_option int4 true (update.quantity b).

(** ** A small inventory used in the examples *)

Module example.
Definition mixer : Equipment := {| name := "Mixer"; category := "Audio"; stock := 5 |}.

Definition db0 : DB :=
  {| equipments := {[ "e1" := mixer ]};
     events := ∅;
     equipmentEvent := [];
     damagedEquipment := ∅ |}.

Definition two_mixers : list item.t := [ {| item.equipmentId := "e1"; item.quantity := 2 |} ].

Definition gig (items : option (list item.t)) : body.t :=
  {| body.title := "Gig"; body.description := "Open air"; body.date := Some 1767225600000;
     body.location := "Hall"; body.status := None; body.equipments := items |}.

(** What the schemas return for the gig. *)
Definition gig_validated (items : option (list item.t)) : validated.t :=
  {| validated.title := "Gig"; validated.description := "Open air";
     validated.date := 1767225600000; validated.location := "Hall";
     validated.status := None; validated.equipments := items |}.

Definition three_mixers : list item.t := [ {| item.equipmentId := "e1"; item.quantity := 3 |} ].

Definition six_mixers : list item.t := [ {| item.equipmentId := "e1"; item.quantity := 6 |} ].

(** A list that names the mixer in two entries. *)
Definition twice : list item.t :=
  [ {| item.equipmentId := "e1"; item.quantity := 2 |};
    {| item.equipmentId := "e1"; item.quantity := 1 |} ].

(** The inventory after the gig reserved two mixers as event "ev1". *)
Definition db1 : DB := (EventsRoute.POST "ev1" (gig (Some two_mixers)) db0).2.

Definition broken : report.t :=
  {| report.equipmentId := "e1"; report.quantity := 2; report.description := Some "hum" |}.

Definition set_status (s : RepairStatus) : update.t :=
  {| update.quantity := None; update.description := None; update.repairStatus := Some s |}.

(** A completion that also sets a quantity beyond the INTEGER range. *)
Definition too_many : update.t :=
  {| update.quantity := Some 3000000000; update.description := None;
     update.repairStatus := Some completed |}.

(** No exception is recognised as a Prisma error. *)
Definition no_handler : Exn -> option PrismaErrorInfo := fun _ => None.

(** The damage report "d1" filed at time 0, and the inventory once its
    repair was completed at time 1. *)
Definition db_reported : DB := (DamagedRoute.POST no_handler "d1" 0 broken db0).2.

Definition db_repaired : DB :=
  (DamagedIdRoute.PUT no_handler "d1" 1 (set_status completed) db_reported).2.

Definition payload (uid : Z) : Auth.JWTPayload :=
  {| Auth.sub := "7"; Auth.email := None; Auth.role := None; Auth.userId := Some uid |}.

Definition ok_handler (request : Auth.NextRequest) (u : Auth.user.t) (w : unit)
  : Response * unit :=
  (json (Text "ok") 200, w).

Definition request : Auth.NextRequest :=
  {| Auth.cookies := {[ "jwt-access-token" := "token" ]} |}.
End example.

(** ** Further quantities used in the statements *)

(** What an equipment has in stock plus what the events hold of it. *)
Definition owned (eid : string) (db : DB) : option Z :=
  (fun e => stock e + reserved eid (equipmentEvent db)) <$> equipments db !! eid.

(** The list a validated body asks for, empty when the key is absent. *)
Definition requested_list (v : validated.t) : list item.t :=
  default [] (validated.equipments v).

(** The event row the update handler writes. *)
Definition updated_event (v : validated.t) (old : Event) : Event :=
  {| title := validated.title v;
     description := validated.description v;
     date := validated.date v;
     location := validated.location v;
     event_status :=
       match validated.status v with
       | Some s => Some s
       | None => event_status old
       end |}.

(** The character occurs in the string. *)
Fixpoint occurs (c : ascii) (s : string) : bool :=
  match s with
  | EmptyString => false
  | String c' s' => Ascii.eqb c' c || occurs c s'
  end.

(** ** Requests used in the examples *)

Module sample.
(** A verifier that accepts the one token "token", with the payload of
  user 7. *)
Definition verifier (uid : Z) (role : option string) (token secret : string)
: option Auth.JWTPayload :=
if String.eqb token "token"
then Some {| Auth.sub := "7"; Auth.email := None; Auth.role := role;
             Auth.userId := Some uid |}
else None.

(** The decimal digits of 7 are all the examples need of [String]. *)
Definition show (n : Z) : string := if n =? 7 then "7" else "?".

(** A visit of the events page with the session cookie and a forged
  [x-user-id] header. *)
Definition visit : Proxy.NextRequest :=
{| Proxy.pathname := "/events";
   Proxy.cookies := {[ "jwt-access-token" := "token" ]};
   Proxy.headers := {[ "x-user-id" := "1" ]} |}.

(** The same visit without a cookie. *)
Definition anonymous : Proxy.NextRequest :=
{| Proxy.pathname := "/events"; Proxy.cookies := ∅; Proxy.headers := ∅ |}.
End sample.

(** * Properties *)

(** ** Stock arithmetic *)

Lemma add_stock_0 (e : Equipment) : add_stock 0 e = e.
Proof. destruct e as [n c s]. unfold add_stock; simpl. f_equal. lia. Qed.

Lemma add_stock_add (a b : Z) (e : Equipment) :
  add_stock a (add_stock b e) = add_stock (b + a) e.
Proof. unfold add_stock; simpl. f_equal. lia. Qed.

Lemma add_stock_0_fmap (o : option Equipment) : add_stock 0 <$> o = o.
Proof. destruct o as [e|]; simpl; [by rewrite add_stock_0 | done]. Qed.

Lemma stock_add_stock (d : Z) (e : Equipment) : stock (add_stock d e) = stock e + d.
Proof. reflexivity. Qed.

Lemma sum_for_cons {A} (key : A -> string) (val : A -> Z) id x (l : list A) :
  sum_for key val id (x :: l)
  = (if decide (key x = id) then val x else 0) + sum_for key val id l.
Proof. unfold sum_for; simpl. case_decide; lia. Qed.

Lemma sum_for_app {A} (key : A -> string) (val : A -> Z) id (l1 l2 : list A) :
  sum_for key val id (l1 ++ l2) = sum_for key val id l1 + sum_for key val id l2.
Proof.
  induction l1 as [|x l1 IH]; [unfold sum_for; simpl; lia|].
  rewrite <- app_comm_cons, !sum_for_cons, IH. lia.
Qed.

Lemma sum_for_opp {A} (key : A -> string) (val : A -> Z) id (l : list A) :
  sum_for key (fun x => - val x) id l = - sum_for key val id l.
Proof.
  induction l as [|x l IH]; [done|].
  rewrite !sum_for_cons, IH. case_decide; lia.
Qed.

Lemma sum_for_map {A B} (g : A -> B) (key : B -> string) (val : B -> Z) id (l : list A) :
  sum_for key val id (map g l) = sum_for (key ∘ g) (val ∘ g) id l.
Proof.
  induction l as [|x l IH]; [done|].
  simpl map. rewrite !sum_for_cons, IH. done.
Qed.

Lemma sum_for_unique {A} (key : A -> string) (val : A -> Z) (x : A) (l : list A) :
  NoDup (map key l) -> x ∈ l -> sum_for key val (key x) l = val x.
Proof.
  induction l as [|y l IH]; intros Hnd Hin.
  - by apply elem_of_nil in Hin.
  - simpl in Hnd. apply NoDup_cons in Hnd as [Hy Hnd].
    rewrite sum_for_cons.
    assert (Hfresh : forall z, z ∈ l -> key z = key y -> False).
    { intros z Hz Hk. apply Hy. rewrite <- Hk. apply list_elem_of_fmap. eauto. }
    apply elem_of_cons in Hin as [-> | Hin].
    + rewrite decide_True by done.
      assert (sum_for key val (key y) l = 0) as ->; [|lia].
      clear IH Hy Hnd. induction l as [|z l IHl]; [done|].
      rewrite sum_for_cons, decide_False.
      * rewrite IHl; [lia|]. intros w Hw. apply Hfresh. by right.
      * intros Hk. apply (Hfresh z); [by left | done].
    + rewrite decide_False, IH by (done || (intros Hk; by apply (Hfresh x))). lia.
Qed.

Lemma sum_for_absent {A} (key : A -> string) (val : A -> Z) (id : string) (l : list A) :
  id ∉ map key l -> sum_for key val id l = 0.
Proof.
  induction l as [|x l IH]; [done|]. cbn [map]. intros Hnot.
  apply not_elem_of_cons in Hnot as [Hne Hnot].
  rewrite sum_for_cons, decide_False by done. by rewrite IH.
Qed.

(** ** The loops over the reservation list *)

(** Unfolds one [await]. *)
Lemma bind_Ok {A B} (c : M A) (k : A -> M B) db a db' :
  c db = (Ok a, db') -> bind c k db = k a db'.
Proof. intros H. unfold bind. by rewrite H. Qed.

Lemma bind_Throw {A B} (c : M A) (k : A -> M B) db e db' :
  c db = (Throw e, db') -> bind c k db = (Throw e, db').
Proof. intros H. unfold bind. by rewrite H. Qed.

Section stock_loop.
Context {A : Type} (key : A -> string) (upd : A -> StockUpdate).

Let loop (l : list A) : M unit :=
  forEach l (fun x => prisma.equipments_update (key x) (upd x)).

(** A loop of stock updates that returns has added, to every equipment,
    the total of the updates addressed to it, and touched nothing else. *)
Lemma stock_loop_spec (l : list A) (db db' : DB) :
  loop l db = (Ok tt, db') ->
  (forall id, equipments db' !! id
              = add_stock (sum_for key (fun x => delta (upd x)) id l) <$> equipments db !! id)
  /\ events db' = events db
  /\ equipmentEvent db' = equipmentEvent db
  /\ damagedEquipment db' = damagedEquipment db.
Proof.
  revert db. induction l as [|x l IH]; intros db Hrun.
  - inversion Hrun; subst. split; [|done].
    intros id. by rewrite add_stock_0_fmap.
  - cbn [loop forEach] in Hrun. unfold bind, prisma.equipments_update in Hrun.
    destruct (equipments db !! key x) as [e|] eqn:He; [|discriminate].
    apply IH in Hrun as (Hst & Hev & Hrows & Hdmg).
    unfold set_equipments in *.
    cbn [equipments events equipmentEvent damagedEquipment] in *.
    split; [|done].
    intros id. rewrite Hst, sum_for_cons.
    destruct (decide (key x = id)) as [<-|Hne].
    + rewrite lookup_insert_eq, He. cbn. by rewrite add_stock_add.
    + rewrite lookup_insert_ne by done. by rewrite Z.add_0_l.
Qed.

(** The loop returns when every key is present. *)
Lemma stock_loop_runs (l : list A) (db : DB) :
  Forall (fun x => is_Some (equipments db !! key x)) l ->
  exists db', loop l db = (Ok tt, db').
Proof.
  revert db. induction l as [|x l IH]; intros db Hall.
  - by exists db.
  - apply Forall_cons in Hall as [[e He] Hall].
    cbn [loop forEach]. unfold bind, prisma.equipments_update. rewrite He.
    apply IH. eapply Forall_impl; [exact Hall|].
    intros y [ey Hy]. cbn.
    destruct (decide (key x = key y)) as [Heq|Hne].
    + rewrite Heq, lookup_insert_eq. eauto.
    + rewrite lookup_insert_ne by done. eauto.
Qed.

(** It throws, whatever it has done before, when some key is absent. *)
Lemma stock_loop_throws (l : list A) (db : DB) :
  Exists (fun x => equipments db !! key x = None) l ->
  exists e db', loop l db = (Throw e, db').
Proof.
  intros Hex. destruct (loop l db) as [[[]|e] db'] eqn:Hrun; [|eauto].
  exfalso. revert db Hex Hrun. induction l as [|x l IH]; intros db Hex Hrun.
  - by apply Exists_nil in Hex.
  - cbn [loop forEach] in Hrun. unfold bind, prisma.equipments_update in Hrun.
    destruct (equipments db !! key x) as [e|] eqn:He; [|discriminate].
    apply Exists_cons in Hex as [Hx|Hex]; [congruence|].
    apply IH in Hrun; [done|].
    eapply Exists_impl; [exact Hex|]. intros y Hy. cbn.
    destruct (decide (key x = key y)) as [Heq|Hne]; [congruence|].
    by rewrite lookup_insert_ne.
Qed.
End stock_loop.

Lemma in_stock_dec (db : DB) (it : item.t) : {in_stock db it} + {unavailable db it}.
Proof.
  unfold in_stock, unavailable.
  destruct (equipments db !! item.equipmentId it) as [e|]; [|by right].
  destruct (Z_le_gt_dec (item.quantity it) (stock e)); [by left | right; lia].
Qed.

Lemma in_stock_unavailable (db : DB) (it : item.t) :
  in_stock db it -> unavailable db it -> False.
Proof.
  unfold in_stock, unavailable.
  destruct (equipments db !! item.equipmentId it); [lia | done].
Qed.

(** Validation reads and never writes; it returns exactly when every
    entry is in stock. *)
Lemma validate_stock_ok (items : list item.t) (db : DB) :
  Forall (in_stock db) items -> validate_stock items db = (Ok tt, db).
Proof.
  induction items as [|it items IH]; intros Hall; [done|].
  apply Forall_cons in Hall as [Hit Hall].
  unfold validate_stock in *. cbn [forEach].
  unfold bind at 1. unfold bind at 1. unfold prisma.equipments_findUnique.
  unfold in_stock in Hit.
  destruct (equipments db !! item.equipmentId it) as [e|]; [|done].
  destruct (Z.ltb_spec (stock e) (item.quantity it)); [lia|].
  cbn. by apply IH.
Qed.

Lemma validate_stock_throws (items : list item.t) (db : DB) :
  Exists (unavailable db) items ->
  exists m, validate_stock items db = (Throw (JsError m), db).
Proof.
  induction items as [|it items IH]; intros Hex.
  - by apply Exists_nil in Hex.
  - unfold validate_stock in *. cbn [forEach].
    unfold bind at 1. unfold bind at 1. unfold prisma.equipments_findUnique.
    destruct (in_stock_dec db it) as [Hin|Hun].
    + apply Exists_cons in Hex as [Hx|Hex]; [by destruct (in_stock_unavailable db it)|].
      unfold in_stock in Hin.
      destruct (equipments db !! item.equipmentId it) as [e|]; [|done].
      destruct (Z.ltb_spec (stock e) (item.quantity it)); [lia|].
      cbn. by apply IH.
    + unfold unavailable in Hun.
      destruct (equipments db !! item.equipmentId it) as [e|]; cbn; [|eauto].
      destruct (Z.ltb_spec (stock e) (item.quantity it)); [|lia].
      cbn. eauto.
Qed.

Lemma validate_stock_inv (items : list item.t) (db db' : DB) :
  validate_stock items db = (Ok tt, db') -> db' = db /\ Forall (in_stock db) items.
Proof.
  induction items as [|it items IH]; intros Hrun.
  - by inversion Hrun.
  - unfold validate_stock in *. cbn [forEach] in Hrun.
    unfold bind at 1 in Hrun. unfold bind at 1 in Hrun.
    unfold prisma.equipments_findUnique in Hrun.
    destruct (equipments db !! item.equipmentId it) as [e|] eqn:He; [|discriminate].
    destruct (Z.ltb_spec (stock e) (item.quantity it)); [discriminate|].
    cbn in Hrun. apply IH in Hrun as [-> Hall]. split; [done|].
    constructor; [|done]. unfold in_stock. by rewrite He.
Qed.

(** ** Creating and replacing reservations *)

Lemma in_stock_equipments (db1 db2 : DB) (it : item.t) :
  equipments db1 = equipments db2 -> in_stock db1 it -> in_stock db2 it.
Proof. unfold in_stock. by intros ->. Qed.

Lemma unavailable_equipments (db1 db2 : DB) (it : item.t) :
  equipments db1 = equipments db2 -> unavailable db1 it -> unavailable db2 it.
Proof. unfold unavailable. by intros ->. Qed.

Lemma in_stock_is_Some (db : DB) (it : item.t) :
  in_stock db it -> is_Some (equipments db !! item.equipmentId it).
Proof. unfold in_stock. destruct (equipments db !! _); [eauto | done]. Qed.

(** The rows written for a list collide neither with each other, when the
    list names each equipment once, nor with the table, when it holds no
    row of the event. *)
Lemma row_keys_NoDup (id : string) (items : list item.t) :
  NoDup (map row_key (map (row id) items)) <-> NoDup (map item.equipmentId items).
Proof.
  induction items as [|it items IH]; [split; intros _; apply NoDup_nil_2|].
  cbn [map]. rewrite !NoDup_cons, IH.
  assert (row_key (row id it) ∈ map row_key (map (row id) items)
          <-> item.equipmentId it ∈ map item.equipmentId items) as Hin.
  { clear IH. induction items as [|it' items IH]; cbn [map].
    - split; intros H; by apply elem_of_nil in H.
    - rewrite !elem_of_cons, IH. unfold row_key, row; cbn.
      split; (intros [H|H]; [left|by right]); congruence. }
  by rewrite Hin.
Qed.

Lemma row_keys_fresh (id : string) (items : list item.t) (rows : list EquipmentEvent) :
  Forall (fun r => eventId r <> id) rows ->
  Forall (fun r => row_key r ∉ map row_key rows) (map (row id) items).
Proof.
  intros Hrows. apply Forall_fmap, Forall_forall. intros it _. cbn.
  intros (r & Hkey & Hr)%list_elem_of_fmap.
  rewrite Forall_forall in Hrows. apply (Hrows r Hr).
  unfold row_key, row in Hkey; cbn in Hkey. congruence.
Qed.

Lemma rows_of_nil (id : string) (db : DB) :
  rows_of id db = [] <-> Forall (fun r => eventId r <> id) (equipmentEvent db).
Proof.
  unfold rows_of. induction (equipmentEvent db) as [|r rows IH]; [done|].
  rewrite filter_cons, Forall_cons. case_decide; [|tauto].
  split; [done|]. by intros [? _].
Qed.

Lemma others_not_of (id : string) (rows : list EquipmentEvent) :
  Forall (fun r => eventId r <> id) (filter (fun r => eventId r <> id) rows).
Proof.
  induction rows as [|r rows IH]; [done|].
  rewrite filter_cons. case_decide; [by constructor | done].
Qed.

Lemma reserve_spec (id : string) (items : list item.t) (db db' : DB) :
  reserve id items db = (Ok tt, db') ->
  Forall (in_stock db) items
  /\ (forall eid, equipments db' !! eid
                  = add_stock (- requested eid items) <$> equipments db !! eid)
  /\ events db' = events db
  /\ equipmentEvent db' = equipmentEvent db ++ map (row id) items
  /\ damagedEquipment db' = damagedEquipment db
  /\ NoDup (map item.equipmentId items).
Proof.
  unfold reserve. intros Hrun. unfold bind at 1 in Hrun.
  destruct (validate_stock items db) as [[[]|e] db1] eqn:Hval; [|discriminate].
  apply validate_stock_inv in Hval as [-> Hall].
  unfold bind at 1 in Hrun. unfold prisma.equipmentEvent_createMany in Hrun.
  destruct (decide (Forall _ (map (row id) items))) as [_|]; [|discriminate].
  destruct (decide (_ /\ _)) as [[Hnd _]|]; [|discriminate].
  apply row_keys_NoDup in Hnd.
  apply stock_loop_spec in Hrun as (Hst & Hev & Hrows & Hdmg).
  cbn in Hst, Hev, Hrows, Hdmg. repeat split; try done.
  intros eid. rewrite Hst. unfold requested. f_equal. f_equal.
  apply (sum_for_opp item.equipmentId item.quantity).
Qed.

Lemma reserve_runs (id : string) (items : list item.t) (db : DB) :
  Forall (in_stock db) items ->
  NoDup (map item.equipmentId items) ->
  Forall (fun r => eventId r <> id) (equipmentEvent db) ->
  exists db', reserve id items db = (Ok tt, db').
Proof.
  intros Hall Hnd Hfresh. unfold reserve.
  rewrite (bind_Ok _ _ _ _ _ (validate_stock_ok items db Hall)).
  unfold bind at 1. unfold prisma.equipmentEvent_createMany.
  rewrite decide_True.
  - rewrite decide_True.
    + apply stock_loop_runs. cbn.
      eapply Forall_impl; [exact Hall|]. apply in_stock_is_Some.
    + split; [by apply row_keys_NoDup | by apply row_keys_fresh].
  - apply Forall_fmap. eapply Forall_impl; [exact Hall|].
    intros it Hit. cbn. by apply in_stock_is_Some.
Qed.

(** A list naming an equipment twice is refused by the unique index. *)
Lemma reserve_duplicate (id : string) (items : list item.t) (db : DB) :
  ~ NoDup (map item.equipmentId items) ->
  exists e db', reserve id items db = (Throw e, db').
Proof.
  intros Hdup. destruct (reserve id items db) as [[[]|e] db'] eqn:Hrun; [|eauto].
  apply reserve_spec in Hrun as (_ & _ & _ & _ & _ & Hnd). contradiction.
Qed.

Lemma reserve_throws (id : string) (items : list item.t) (db : DB) :
  Exists (unavailable db) items -> exists e db', reserve id items db = (Throw e, db').
Proof.
  intros Hex. apply validate_stock_throws in Hex as [m Hm].
  exists (JsError m), db. unfold reserve. by rewrite (bind_Throw _ _ _ _ _ Hm).
Qed.

Lemma EventSchema_equipments (b : body.t) (v : validated.t) :
  EventsRoute.EventSchema b = Some v -> validated.equipments v = body.equipments b.
Proof.
  unfold EventsRoute.EventSchema. intros H.
  destruct (_ && _); [|discriminate].
  destruct (body.date b); [|discriminate]. by inversion H.
Qed.

Lemma EventSchema_put_equipments (b : body.t) (v : validated.t) :
  EventIdRoute.EventSchema b = Some v -> validated.equipments v = body.equipments b.
Proof.
  unfold EventIdRoute.EventSchema. intros H.
  destruct (_ && _); [|discriminate].
  destruct (body.date b); [|discriminate]. by inversion H.
Qed.

(** The transaction of the create handler, step by step. *)
Lemma POST_tx_unfold (newId : string) (v : validated.t) (db : DB) :
  events db !! newId = None ->
  EventsRoute.POST_tx newId v db
  = (await _ <- match validated.equipments v with
                | Some ((_ :: _) as items) => reserve newId items
                | _ => ret tt
                end;
     prisma.events_findUnique_include newId)
      (set_events (<[newId := {| title := validated.title v;
                                 description := validated.description v;
                                 date := validated.date v;
                                 location := validated.location v;
                                 event_status := None |}]> (events db)) db).
Proof.
  intros Hfresh. unfold EventsRoute.POST_tx.
  unfold bind at 1. unfold prisma.events_create. rewrite Hfresh.
  by destruct (validated.equipments v) as [[|??]|].
Qed.

(** ** POST /api/events *)

Lemma POST_tx_runs (newId : string) (v : validated.t) (items : list item.t) (db : DB) :
  validated.equipments v = Some items ->
  events db !! newId = None ->
  rows_of newId db = [] ->
  NoDup (map item.equipmentId items) ->
  Forall (in_stock db) items ->
  exists event db',
    EventsRoute.POST_tx newId v db = (Ok event, db')
    /\ equipmentEvent db' = equipmentEvent db ++ map (row newId) items
    /\ (forall eid, equipments db' !! eid
                    = add_stock (- requested eid items) <$> equipments db !! eid)
    /\ is_Some (events db' !! newId)
    /\ damagedEquipment db' = damagedEquipment db.
Proof.
  intros Heq Hfresh Hnone Hnd Hall. rewrite POST_tx_unfold by done. rewrite Heq.
  set (db1 := set_events _ db).
  destruct items as [|it items].
  - eexists _, db1. split; [reflexivity|]. cbn.
    rewrite app_nil_r, lookup_insert_eq. repeat split; eauto.
    intros eid. by rewrite add_stock_0_fmap.
  - destruct (reserve_runs newId (it :: items) db1) as [db2 Hrun];
      [done | done | by apply rows_of_nil |].
    pose proof (reserve_spec _ _ _ _ Hrun) as (_ & Hst & Hev & Hrows & Hdmg & _).
    rewrite (bind_Ok _ _ _ _ _ Hrun).
    eexists _, db2. split; [reflexivity|].
    split; [exact Hrows|]. split; [exact Hst|]. split; [|exact Hdmg].
    rewrite Hev. cbn. rewrite lookup_insert_eq. eauto.
Qed.

Lemma POST_tx_throws (newId : string) (v : validated.t) (items : list item.t) (db : DB) :
  validated.equipments v = Some items ->
  Exists (unavailable db) items ->
  exists e db', EventsRoute.POST_tx newId v db = (Throw e, db').
Proof.
  intros Heq Hex.
  destruct (events db !! newId) as [ev|] eqn:Hfresh.
  - unfold EventsRoute.POST_tx, bind at 1, prisma.events_create.
    rewrite Hfresh. eauto.
  - rewrite POST_tx_unfold by done. rewrite Heq.
    destruct items as [|it items]; [by apply Exists_nil in Hex|].
    set (db1 := set_events _ db).
    destruct (reserve_throws newId (it :: items) db1) as (e & db2 & Hrun); [done|].
    rewrite (bind_Throw _ _ _ _ _ Hrun). eauto.
Qed.

(** What the create handler returns when its transaction commits. *)
Lemma POST_commits (newId : string) (b : body.t) (v : validated.t)
    (items : list item.t) (db : DB) :
  EventsRoute.EventSchema b = Some v ->
  body.equipments b = Some items ->
  events db !! newId = None ->
  rows_of newId db = [] ->
  NoDup (map item.equipmentId items) ->
  Forall (in_stock db) items ->
  exists event db',
    EventsRoute.POST newId b db
    = (json_data (Text "Event berhasil dibuat") (EventData event) 201, db')
    /\ EventsRoute.POST_tx newId v db = (Ok event, db')
    /\ equipmentEvent db' = equipmentEvent db ++ map (row newId) items
    /\ (forall eid, equipments db' !! eid
                    = add_stock (- requested eid items) <$> equipments db !! eid)
    /\ is_Some (events db' !! newId).
Proof.
  intros Hv Hitems Hfresh Hnone Hnd Hall.
  pose proof (EventSchema_equipments _ _ Hv) as Heq. rewrite Hitems in Heq.
  destruct (POST_tx_runs newId v items db Heq Hfresh Hnone Hnd Hall)
    as (event & db' & Hrun & Hrows & Hst & Hev & _).
  exists event, db'. repeat split; try done.
  unfold EventsRoute.POST, try_catch, EventsRoute.EventSchema_parse.
  rewrite Hv. unfold bind, ret, transaction. by rewrite Hrun.
Qed.

(** A list that names an equipment twice is refused: the transaction
    throws whatever else holds of the list. *)
Lemma POST_tx_duplicate (newId : string) (v : validated.t) (items : list item.t) (db : DB) :
  validated.equipments v = Some items ->
  ~ NoDup (map item.equipmentId items) ->
  exists e db', EventsRoute.POST_tx newId v db = (Throw e, db').
Proof.
  intros Heq Hdup.
  destruct (events db !! newId) as [ev|] eqn:Hfresh.
  - unfold EventsRoute.POST_tx, bind at 1, prisma.events_create.
    rewrite Hfresh. eauto.
  - rewrite POST_tx_unfold by done. rewrite Heq.
    destruct items as [|it items]; [destruct Hdup; apply NoDup_nil_2|].
    set (db1 := set_events _ db).
    destruct (reserve_duplicate newId (it :: items) db1 Hdup) as (e & db2 & Hrun).
    rewrite (bind_Throw _ _ _ _ _ Hrun). eauto.
Qed.

Lemma POST_refuses_duplicate
    (newId : string) (b : body.t) (v : validated.t) (items : list item.t) (db : DB) :
  EventsRoute.EventSchema b = Some v ->
  body.equipments b = Some items ->
  ~ NoDup (map item.equipmentId items) ->
  status (EventsRoute.POST newId b db).1 = 400 /\ (EventsRoute.POST newId b db).2 = db.
Proof.
  intros Hv Hitems Hdup.
  pose proof (EventSchema_equipments _ _ Hv) as Heq. rewrite Hitems in Heq.
  destruct (POST_tx_duplicate newId v items db Heq Hdup) as (e & db' & Hrun).
  unfold EventsRoute.POST, try_catch, EventsRoute.EventSchema_parse.
  rewrite Hv. unfold bind, ret, transaction. rewrite Hrun. cbn.
  by destruct e.
Qed.

(** C1 fails as stated.  A list can name the same equipment in two
    entries, each of them covered by the stock: the schema accepts it and
    the stock check passes, but the second row breaks the unique index on
    (equipment, event), so the transaction is rolled back and the request
    is answered 400 with nothing reserved. *)
Theorem POST_event_refuses_repeated_equipment :
  let b := example.gig (Some example.twice) in
  let out := EventsRoute.POST "ev1" b example.db0 in
  EventsRoute.EventSchema b = Some (example.gig_validated (Some example.twice))
  /\ events example.db0 !! "ev1" = None
  /\ Forall (in_stock example.db0) example.twice
  /\ status out.1 = 400
  /\ out.2 = example.db0.
Proof.
  cbv zeta. split; [by vm_compute|]. split; [by vm_compute|]. split.
  - repeat constructor; vm_compute; discriminate.
  - split; by vm_compute.
Qed.

(** C1, as the code has it.  A create request that validates, with a
    fresh event id (to which, by the foreign key, no row refers), whose
    list names only existing equipment with enough stock and names each
    equipment once, is answered 201; the handler adds one [EquipmentEvent]
    row per list entry, in order, each with the requested quantity, and
    every listed equipment's stock goes down by exactly that quantity, the
    others staying as they are.  The database written is the one
    committed by the single transaction, whose result the response
    carries.  A list that names an equipment twice is refused by the
    unique index of the rows: the answer is 400 and the database is
    unchanged. *)
Theorem POST_event_reserves_stock
    (newId : string) (b : body.t) (v : validated.t) (items : list item.t) (db : DB) :
  EventsRoute.EventSchema b = Some v ->
  body.equipments b = Some items ->
  events db !! newId = None ->
  rows_of newId db = [] ->
  Forall (in_stock db) items ->
  let out := EventsRoute.POST newId b db in
  (NoDup (map item.equipmentId items) ->
   status out.1 = 201
   /\ is_Some (events out.2 !! newId)
   /\ equipmentEvent out.2 = equipmentEvent db ++ map (row newId) items
   /\ (forall eid, equipments out.2 !! eid
                   = add_stock (- requested eid items) <$> equipments db !! eid)
   /\ (forall it, it ∈ items ->
         stock <$> equipments out.2 !! item.equipmentId it
         = (fun s => s - item.quantity it)
             <$> (stock <$> equipments db !! item.equipmentId it))
   /\ (forall eid, eid ∉ map item.equipmentId items ->
                   equipments out.2 !! eid = equipments db !! eid)
   /\ (exists event,
         transaction (EventsRoute.POST_tx newId v) db = (Ok event, out.2)
         /\ data out.1 = Some (EventData event)))
  /\ (~ NoDup (map item.equipmentId items) -> status out.1 = 400 /\ out.2 = db).
Proof.
  intros Hv Hitems Hfresh Hnone Hall out. split.
  - intros Hnd.
    destruct (POST_commits newId b v items db Hv Hitems Hfresh Hnone Hnd Hall)
      as (event & db' & Hout & Hrun & Hrows & Hst & Hev).
    unfold out. rewrite Hout.
    cbn [fst snd status data json_data].
    split; [done|]. split; [done|]. split; [done|]. split; [done|].
    split; [|split].
    + intros it Hit. rewrite Hst, <- option_fmap_compose.
      rewrite (sum_for_unique item.equipmentId item.quantity it items Hnd Hit
               : requested _ _ = _).
      destruct (equipments db !! item.equipmentId it) as [e|]; [|done].
      cbn. f_equal; lia.
    + intros eid Hnot. rewrite Hst.
      rewrite (sum_for_absent item.equipmentId item.quantity eid items Hnot
               : requested _ _ = _).
      apply add_stock_0_fmap.
    + exists event. unfold transaction. by rewrite Hrun.
  - intros Hdup. by apply (POST_refuses_duplicate newId b v items db).
Qed.

(** ** POST /api/events: rejection *)

(** C5.  A create request whose list names an equipment that does not
    exist, or asks for more than an equipment's current stock, is answered
    400 and leaves the database exactly as it was: the event row written
    at the start of the transaction is rolled back with everything else. *)
Theorem POST_event_rejects_atomically
    (newId : string) (b : body.t) (items : list item.t) (db : DB) :
  body.equipments b = Some items ->
  Exists (unavailable db) items ->
  status (EventsRoute.POST newId b db).1 = 400
  /\ (EventsRoute.POST newId b db).2 = db.
Proof.
  intros Hitems Hex.
  unfold EventsRoute.POST, try_catch, EventsRoute.EventSchema_parse.
  destruct (EventsRoute.EventSchema b) as [v|] eqn:Hv; [|done].
  pose proof (EventSchema_equipments _ _ Hv) as Heq. rewrite Hitems in Heq.
  destruct (POST_tx_throws newId v items db Heq Hex) as (e & db' & Hrun).
  unfold bind, ret, transaction. rewrite Hrun. cbn.
  by destruct e.
Qed.

(** ** PUT /api/events/[id] *)

Lemma rows_of_others (id : string) (rows : list EquipmentEvent) :
  filter (fun r => eventId r = id) (filter (fun r => eventId r <> id) rows) = [].
Proof.
  induction rows as [|r rows IH]; [done|].
  rewrite (filter_cons (fun r => eventId r <> id)).
  case_decide; [|done].
  rewrite filter_cons, decide_False by done. done.
Qed.

Lemma rows_of_new (id : string) (items : list item.t) :
  filter (fun r => eventId r = id) (map (row id) items) = map (row id) items.
Proof.
  induction items as [|it items IH]; [done|].
  cbn [map]. rewrite filter_cons, decide_True by done. by rewrite IH.
Qed.

Lemma reserved_row (id eid : string) (items : list item.t) :
  reserved eid (map (row id) items) = requested eid items.
Proof. unfold reserved, requested. by rewrite sum_for_map. Qed.


(** The transaction of the update handler once the event row is written
    and the old rows are read and deleted. *)
Lemma PUT_tx_unfold (id : string) (v : validated.t) (items : list item.t)
    (ev : Event) (db : DB) :
  events db !! id = Some ev ->
  validated.equipments v = Some items ->
  exists ev',
    EventIdRoute.PUT_tx id v db
    = (await _ <- (await _ <- restore_stock (rows_of id db);
                   match items with
                   | _ :: _ => reserve id items
                   | [] => ret tt
                   end);
       prisma.events_findUnique_include id)
        (set_equipmentEvent (filter (fun r => eventId r <> id) (equipmentEvent db))
           (set_events (<[id := ev']> (events db)) db)).
Proof.
  intros Hev Heq. eexists. unfold EventIdRoute.PUT_tx.
  unfold bind at 1. unfold prisma.events_update. rewrite Hev, Heq.
  reflexivity.
Qed.

Lemma PUT_tx_spec (id : string) (v : validated.t) (items : list item.t)
    (db db' : DB) event :
  is_Some (events db !! id) ->
  validated.equipments v = Some items ->
  EventIdRoute.PUT_tx id v db = (Ok event, db') ->
  (forall eid, equipments db' !! eid
               = add_stock (reserved eid (rows_of id db) - requested eid items)
                   <$> equipments db !! eid)
  /\ equipmentEvent db'
     = filter (fun r => eventId r <> id) (equipmentEvent db) ++ map (row id) items
  /\ damagedEquipment db' = damagedEquipment db
  /\ Forall (refers db) (rows_of id db)
  /\ Forall (available_for db (rows_of id db)) items
  /\ NoDup (map item.equipmentId items).
Proof.
  intros [ev Hev] Heq Hrun.
  destruct (PUT_tx_unfold id v items ev db Hev Heq) as [ev' Hunf].
  rewrite Hunf in Hrun. clear Hunf.
  set (db2 := set_equipmentEvent _ _) in Hrun.
  unfold bind at 1 in Hrun. unfold bind at 1 in Hrun.
  destruct (restore_stock (rows_of id db) db2) as [[[]|e] db3] eqn:Hrest;
    [|discriminate].
  pose proof (stock_loop_spec _ _ _ _ _ Hrest) as (Hst3 & Hev3 & Hrows3 & Hdmg3).
  assert (Forall (refers db) (rows_of id db)) as Href.
  { apply Forall_forall. intros r Hr. unfold refers.
    destruct (equipments db !! equipmentId r) eqn:Hnone; [eauto|]. exfalso.
    destruct (stock_loop_throws equipmentId (fun r => increment (quantity r))
                (rows_of id db) db2) as (e & db4 & Hthrow).
    - apply Exists_exists. eauto.
    - unfold restore_stock in Hrest. congruence. }
  cbn in Hst3, Hrows3, Hdmg3.
  destruct items as [|it items].
  - inversion Hrun; subst. cbn [map]. rewrite app_nil_r.
    split; [|repeat split; try done; apply NoDup_nil_2].
    intros eid. rewrite Hst3. unfold requested, sum_for at 2. cbn [foldr].
    by rewrite Z.sub_0_r.
  - destruct (reserve id (it :: items) db3) as [[[]|e] db4] eqn:Hres; [|discriminate].
    inversion Hrun; subst.
    apply reserve_spec in Hres as (Hall & Hst4 & Hev4 & Hrows4 & Hdmg4 & Hnd).
    split; [|split; [|split; [|split; [|split; [|exact Hnd]]]]].
    + intros eid. rewrite Hst4, Hst3, <- option_fmap_compose.
      destruct (equipments db !! eid) as [e|]; [|done]. cbn.
      rewrite add_stock_add. f_equal.
    + by rewrite Hrows4, Hrows3.
    + by rewrite Hdmg4, Hdmg3.
    + done.
    + eapply Forall_impl; [exact Hall|]. intros it' Hit'.
      unfold in_stock in Hit'. unfold available_for.
      rewrite Hst3 in Hit'.
      destruct (equipments db !! item.equipmentId it') as [e|]; [|done].
      exact Hit'.
Qed.

Lemma PUT_tx_runs (id : string) (v : validated.t) (items : list item.t) (db : DB) :
  is_Some (events db !! id) ->
  validated.equipments v = Some items ->
  Forall (refers db) (rows_of id db) ->
  Forall (available_for db (rows_of id db)) items ->
  NoDup (map item.equipmentId items) ->
  exists event db', EventIdRoute.PUT_tx id v db = (Ok event, db').
Proof.
  intros [ev Hev] Heq Href Hall Hnd.
  destruct (PUT_tx_unfold id v items ev db Hev Heq) as [ev' ->].
  set (db2 := set_equipmentEvent _ _).
  destruct (stock_loop_runs equipmentId (fun r => increment (quantity r))
              (rows_of id db) db2 Href) as [db3 Hrest].
  pose proof (stock_loop_spec _ _ _ _ _ Hrest) as (Hst3 & _ & Hrows3 & _).
  unfold bind at 1. unfold bind at 1. unfold restore_stock. rewrite Hrest.
  destruct items as [|it items]; [cbn; eauto|].
  destruct (reserve_runs id (it :: items) db3) as [db4 Hres].
  - eapply Forall_impl; [exact Hall|]. intros it' Hit'.
    unfold available_for in Hit'. unfold in_stock. rewrite Hst3. cbn.
    destruct (equipments db !! item.equipmentId it') as [e|]; [|done].
    exact Hit'.
  - exact Hnd.
  - rewrite Hrows3. apply others_not_of.
  - rewrite Hres. cbn. eauto.
Qed.



(** What the update handler returns, in terms of its transaction. *)
Lemma PUT_outcome (id : string) (b : body.t) (v : validated.t) (db : DB) :
  EventIdRoute.EventSchema b = Some v ->
  is_Some (events db !! id) ->
  EventIdRoute.PUT id b db
  = match EventIdRoute.PUT_tx id v db with
    | (Ok event, db') =>
        (json_data (Text "Event berhasil diperbarui") (EventData event) 200, db')
    | (Throw e, _) =>
        (json (if instanceof_ZodError e then Text "Validasi gagal" else error_message e)
              400, db)
    end.
Proof.
  intros Hv [ev Hev].
  unfold EventIdRoute.PUT, try_catch, EventIdRoute.EventSchema_parse.
  rewrite Hv. unfold bind, ret, prisma.events_findUnique, transaction.
  rewrite Hev.
  destruct (EventIdRoute.PUT_tx id v db) as [[event|e] db']; [done|].
  by destruct e.
Qed.


(** ** DELETE /api/events/[id] and DELETE /api/events *)

(** Deleting one event through its own route gives back what its rows
    hold, then removes the event and, by the cascade, its rows. *)
Lemma DELETE_event_restores_stock (id : string) (db : DB) :
  is_Some (events db !! id) ->
  Forall (refers db) (rows_of id db) ->
  let out := EventIdRoute.DELETE id db in
  status out.1 = 200
  /\ events out.2 !! id = None
  /\ equipmentEvent out.2 = filter (fun r => eventId r <> id) (equipmentEvent db)
  /\ (forall eid, equipments out.2 !! eid
                  = add_stock (reserved eid (rows_of id db)) <$> equipments db !! eid).
Proof.
  intros [ev Hev] Href out.
  destruct (stock_loop_runs equipmentId (fun r => increment (quantity r))
              (rows_of id db) db Href) as [db1 Hrest].
  pose proof (stock_loop_spec _ _ _ _ _ Hrest) as (Hst & Hevs & Hrows & Hdmg).
  assert (out = (json (Text "Event berhasil dihapus") 200,
                 set_equipmentEvent (filter (fun r => eventId r <> id) (equipmentEvent db1))
                   (set_events (delete id (events db1)) db1))) as ->.
  { unfold out, EventIdRoute.DELETE, try_catch, bind, prisma.events_findUnique.
    rewrite Hev. unfold transaction, EventIdRoute.DELETE_tx, bind.
    unfold prisma.equipmentEvent_findMany, restore_stock. fold (rows_of id db).
    rewrite Hrest. unfold prisma.events_delete. rewrite Hevs, Hev. done. }
  cbn. rewrite Hrows, lookup_delete_eq. done.
Qed.

(** The bulk route only deletes: no equipment row is written. *)
Lemma bulk_DELETE_keeps_stock (ids : option string) (db : DB) :
  equipments (EventsRoute.DELETE ids db).2 = equipments db.
Proof.
  unfold EventsRoute.DELETE, try_catch.
  destruct (length _ =? 0)%nat; done.
Qed.

(** Create, then delete through the event's own route: every stock is
    back where it was. *)
Lemma POST_then_DELETE_roundtrip
    (newId : string) (b : body.t) (v : validated.t) (items : list item.t) (db : DB) :
  EventsRoute.EventSchema b = Some v ->
  body.equipments b = Some items ->
  events db !! newId = None ->
  rows_of newId db = [] ->
  Forall (in_stock db) items ->
  equipments (EventIdRoute.DELETE newId (EventsRoute.POST newId b db).2).2 = equipments db.
Proof.
  intros Hv Hitems Hfresh Hnone Hall.
  destruct (decide (NoDup (map item.equipmentId items))) as [Hnd|Hdup]; cycle 1.
  { destruct (POST_refuses_duplicate newId b v items db Hv Hitems Hdup) as [_ ->].
    unfold EventIdRoute.DELETE, try_catch, bind, prisma.events_findUnique.
    by rewrite Hfresh. }
  destruct (POST_commits newId b v items db Hv Hitems Hfresh Hnone Hnd Hall)
    as (event & db1 & -> & _ & Hrows & Hst & Hev).
  cbn [snd].
  assert (rows_of newId db1 = map (row newId) items) as Hmine.
  { unfold rows_of in *. by rewrite Hrows, filter_app, Hnone, rows_of_new. }
  destruct (DELETE_event_restores_stock newId db1 Hev) as (_ & _ & _ & Hback).
  - rewrite Hmine. apply Forall_fmap, Forall_forall. intros it Hit.
    unfold refers, compose. cbn. rewrite Hst.
    rewrite Forall_forall in Hall.
    destruct (in_stock_is_Some db it (Hall it Hit)) as [e ->]. cbn. eauto.
  - apply map_eq. intros eid.
    rewrite Hback, Hmine, reserved_row, Hst, <- option_fmap_compose.
    destruct (equipments db !! eid) as [e|]; [|done]. cbn.
    by rewrite add_stock_add, Z.add_opp_diag_l, add_stock_0.
Qed.

(** C2.  The claim holds of the single-event route and fails on the bulk
    route: after the gig has reserved two of the five mixers, deleting it
    through /api/events/[id] returns the stock to 5, while deleting it
    through /api/events?ids=ev1 is answered 200, removes the event and
    its row, and leaves the stock at 3. *)
Theorem bulk_DELETE_loses_reserved_stock :
  stock <$> equipments example.db0 !! "e1" = Some 5
  /\ stock <$> equipments example.db1 !! "e1" = Some 3
  /\ equipmentEvent example.db1
     = [ {| eventId := "ev1"; equipmentId := "e1"; quantity := 2 |} ]
  /\ stock <$> equipments (EventIdRoute.DELETE "ev1" example.db1).2 !! "e1" = Some 5
  /\ (let out := EventsRoute.DELETE (Some "ev1") example.db1 in
      status out.1 = 200
      /\ events out.2 !! "ev1" = None
      /\ equipmentEvent out.2 = []
      /\ stock <$> equipments out.2 !! "e1" = Some 3).
Proof. vm_compute. repeat split. Qed.

(** ** Damaged-equipment workflow *)

Section damaged.
Variable handlePrismaError : Exn -> option PrismaErrorInfo.

Lemma prisma_catch_not_2xx (fallback : string) (err : Exn) :
  status (prisma_catch handlePrismaError fallback err) <> 200
  /\ status (prisma_catch handlePrismaError fallback err) <> 201.
Proof.
  unfold prisma_catch. destruct (handlePrismaError err) as [pe|]; [|done].
  cbn. by destruct (String.eqb _ _).
Qed.

(** The report handler, case by case. *)
Lemma POST_damaged_outcome (newId : string) (now : Z) (b : report.t) (db : DB) :
  DamagedRoute.DamagedEquipmentSchema_safeParse b = true ->
  DamagedRoute.POST handlePrismaError newId now b db
  = match equipments db !! report.equipmentId b with
    | None => (json (Text "Equipment tidak ditemukan") 404, db)
    | Some e =>
        if stock e <? report.quantity b
        then (json (StockAvailable (stock e)) 400, db)
        else match damagedEquipment db !! newId with
             | Some _ =>
                 (prisma_catch handlePrismaError
                    "Terjadi kesalahan saat melaporkan equipment rusak"
                    (PrismaError "P2002"), db)
             | None =>
                 (json_data (Text "Equipment rusak berhasil dilaporkan")
                            (DamagedData (reported now b, Some e)) 201,
                  set_damagedEquipment (<[newId := reported now b]> (damagedEquipment db)) db)
             end
    end.
Proof.
  intros Hparse. unfold DamagedRoute.POST, try_catch.
  rewrite Hparse. cbn [negb].
  unfold bind, prisma.equipments_findUnique, prisma.damagedEquipment_create.
  fold (reported now b). cbn [dmg_equipmentId reported].
  destruct (equipments db !! report.equipmentId b) as [e|] eqn:He; [|done].
  destruct (stock e <? report.quantity b); [done|].
  rewrite He. by destruct (damagedEquipment db !! newId).
Qed.

(** C9.  A report that validates is answered 404 when the equipment
    does not exist and 400 when it asks for more than the current
    stock, the database staying as it was; otherwise, the new key being
    free, it is answered 201.  Whenever the answer is 201 the record is
    stored under the new key with status pending and the requested
    quantity, and the equipment table is unchanged. *)
Theorem POST_damaged_report (newId : string) (now : Z) (b : report.t) (db : DB) :
  DamagedRoute.DamagedEquipmentSchema_safeParse b = true ->
  let out := DamagedRoute.POST handlePrismaError newId now b db in
  (equipments db !! report.equipmentId b = None -> status out.1 = 404 /\ out.2 = db)
  /\ (forall e, equipments db !! report.equipmentId b = Some e ->
                stock e < report.quantity b -> status out.1 = 400 /\ out.2 = db)
  /\ (forall e, equipments db !! report.equipmentId b = Some e ->
                report.quantity b <= stock e ->
                damagedEquipment db !! newId = None -> status out.1 = 201)
  /\ (status out.1 = 201 ->
      damagedEquipment out.2 = <[newId := reported now b]> (damagedEquipment db)
      /\ repairStatus (reported now b) = pending
      /\ equipments out.2 = equipments db
      /\ events out.2 = events db
      /\ equipmentEvent out.2 = equipmentEvent db).
Proof.
  intros Hparse out. unfold out.
  rewrite (POST_damaged_outcome newId now b db Hparse).
  destruct (equipments db !! report.equipmentId b) as [e|] eqn:He.
  2:{ cbn. repeat split; try done. }
  destruct (Z.ltb_spec (stock e) (report.quantity b)) as [Hlt|Hge].
  { cbn. repeat split; try done; intros; simplify_eq; lia. }
  destruct (damagedEquipment db !! newId) as [d|] eqn:Hd.
  - cbn [fst snd].
    destruct (prisma_catch_not_2xx "Terjadi kesalahan saat melaporkan equipment rusak"
                (PrismaError "P2002")) as [_ Hne].
    repeat split; try done; intros; simplify_eq; lia.
  - cbn. repeat split; try done; intros; simplify_eq; lia.
Qed.

(** The update handler, case by case.  The stock write of a completion
    and the write of the record are two separate calls: when the second
    fails, the first stays. *)
Lemma PUT_damaged_outcome (id : string) (now : Z) (b : update.t) (db : DB) :
  DamagedIdRoute.UpdateDamagedEquipmentSchema_safeParse b = true ->
  let out := DamagedIdRoute.PUT handlePrismaError id now b db in
  (status out.1, out.2)
  = match damagedEquipment db !! id with
    | None => (404, db)
    | Some existing =>
        let write d :=
          if quantity_fits b
          then (200, set_damagedEquipment
                       (<[id := apply_updateData (updateData_of now b) existing]>
                          (damagedEquipment d)) d)
          else (status (prisma_catch handlePrismaError
                          "Terjadi kesalahan saat mengupdate equipment rusak"
                          UnknownRequestError), d) in
        match update.repairStatus b with
        | Some completed =>
            match equipments db !! dmg_equipmentId existing with
            | Some e =>
                write (set_equipments
                         (<[dmg_equipmentId existing
                            := add_stock (dmg_quantity existing) e]>
                            (equipments db)) db)
            | None =>
                (status (prisma_catch handlePrismaError
                           "Terjadi kesalahan saat mengupdate equipment rusak"
                           (PrismaError "P2025")), db)
            end
        | _ => write db
        end
    end.
Proof.
  intros Hparse out. subst out.
  remember (DamagedIdRoute.PUT handlePrismaError id now b db) as out eqn:Hout.
  unfold DamagedIdRoute.PUT, try_catch in Hout. rewrite Hparse in Hout.
  cbn [negb] in Hout.
  unfold bind at 1 in Hout. unfold prisma.damagedEquipment_findUnique in Hout.
  destruct (damagedEquipment db !! id) as [existing|] eqn:Hex; [|by subst out].
  unfold updateData_of, quantity_fits.
  destruct (update.repairStatus b) as [[]|] eqn:Hs;
    unfold bind, ret, prisma.equipments_update, prisma.damagedEquipment_update in Hout;
    cbn [updateData.quantity] in Hout.
  - rewrite Hex in Hout.
    subst out. cbn. by destruct (from_option int4 true (update.quantity b)).
  - rewrite Hex in Hout.
    subst out. cbn. by destruct (from_option int4 true (update.quantity b)).
  - destruct (equipments db !! dmg_equipmentId existing) as [e|]; [|by subst out].
    cbn [damagedEquipment set_equipments] in Hout. rewrite Hex in Hout.
    subst out. cbn. by destruct (from_option int4 true (update.quantity b)).
  - rewrite Hex in Hout.
    subst out. cbn. by destruct (from_option int4 true (update.quantity b)).
Qed.

(** C4, as the code has it.  A validated update of an existing record
    whose body asks for completed, and whose quantity, when it carries
    one, fits the INTEGER column, is answered 200; the stock of the
    record's equipment grows by the quantity the record held before the
    update, no other equipment changes, and the record is stored as
    completed with [repairedAt] set to the time of the request. *)
Theorem PUT_damaged_completed_restores_stock
    (id : string) (now : Z) (b : update.t) (db : DB)
    (existing : DamagedEquipment) (e : Equipment) :
  DamagedIdRoute.UpdateDamagedEquipmentSchema_safeParse b = true ->
  quantity_fits b = true ->
  damagedEquipment db !! id = Some existing ->
  equipments db !! dmg_equipmentId existing = Some e ->
  update.repairStatus b = Some completed ->
  let out := DamagedIdRoute.PUT handlePrismaError id now b db in
  status out.1 = 200
  /\ equipments out.2
     = <[dmg_equipmentId existing := add_stock (dmg_quantity existing) e]> (equipments db)
  /\ stock <$> equipments out.2 !! dmg_equipmentId existing
     = Some (stock e + dmg_quantity existing)
  /\ (exists d, damagedEquipment out.2 !! id = Some d
                /\ repairStatus d = completed
                /\ repairedAt d = Some now
                /\ dmg_equipmentId d = dmg_equipmentId existing).
Proof.
  intros Hparse Hfits Hex He Hs out.
  pose proof (PUT_damaged_outcome id now b db Hparse) as Hout. fold out in Hout.
  cbv zeta in Hout. rewrite Hex, Hs, He, Hfits in Hout.
  injection Hout as Hst Hdb. rewrite Hst, Hdb. cbn.
  rewrite !lookup_insert_eq. split; [done|]. split; [done|]. split; [done|].
  eexists. split; [reflexivity|]. unfold updateData_of. rewrite Hs. done.
Qed.

(** One completion request on a record whose body leaves the quantity
    alone: the record keeps quantity and equipment, the stock grows. *)
Lemma PUT_completed_step (id : string) (now : Z) (b : update.t) (db : DB)
    (existing : DamagedEquipment) (e : Equipment) :
  update.repairStatus b = Some completed ->
  update.quantity b = None ->
  damagedEquipment db !! id = Some existing ->
  equipments db !! dmg_equipmentId existing = Some e ->
  let db' := (DamagedIdRoute.PUT handlePrismaError id now b db).2 in
  equipments db' !! dmg_equipmentId existing
  = Some (add_stock (dmg_quantity existing) e)
  /\ exists d, damagedEquipment db' !! id = Some d
               /\ dmg_quantity d = dmg_quantity existing
               /\ dmg_equipmentId d = dmg_equipmentId existing
               /\ repairStatus d = completed.
Proof.
  intros Hs Hq Hex He db'.
  assert (DamagedIdRoute.UpdateDamagedEquipmentSchema_safeParse b = true) as Hparse.
  { unfold DamagedIdRoute.UpdateDamagedEquipmentSchema_safeParse. by rewrite Hq. }
  pose proof (PUT_damaged_outcome id now b db Hparse) as Hout.
  cbv zeta in Hout. unfold quantity_fits in Hout.
  rewrite Hex, Hs, He, Hq in Hout. cbn [from_option] in Hout.
  injection Hout as _ Hdb. unfold db'. rewrite Hdb. cbn.
  rewrite !lookup_insert_eq. split; [done|].
  eexists. split; [reflexivity|]. unfold updateData_of. rewrite Hs, Hq. done.
Qed.

(** C10.  The restoration does not look at the record's current status:
    a completion request on a record that is already completed adds the
    record's quantity to the stock again, and [n] such requests in a row
    (bodies that leave the quantity alone) add [n] times the quantity. *)
Theorem repeated_completion_adds_stock
    (id : string) (b : update.t) (times : list Z) (db : DB)
    (existing : DamagedEquipment) (e : Equipment) :
  update.repairStatus b = Some completed ->
  update.quantity b = None ->
  damagedEquipment db !! id = Some existing ->
  equipments db !! dmg_equipmentId existing = Some e ->
  stock <$> equipments (repeat_PUT handlePrismaError id b times db)
              !! dmg_equipmentId existing
  = Some (stock e + Z.of_nat (length times) * dmg_quantity existing)
  /\ (repairStatus existing = completed ->
      forall now,
        stock <$> equipments (DamagedIdRoute.PUT handlePrismaError id now b db).2
                    !! dmg_equipmentId existing
        = Some (stock e + dmg_quantity existing)).
Proof.
  intros Hs Hq Hex He. split.
  - revert db existing e Hex He.
    induction times as [|now times IH]; intros db existing e Hex He.
    + cbn. rewrite He. cbn. f_equal. lia.
    + destruct (PUT_completed_step id now b db existing e Hs Hq Hex He)
        as (He' & d & Hd & Hdq & Hde & _).
      change (repeat_PUT handlePrismaError id b (now :: times) db)
        with (repeat_PUT handlePrismaError id b times
                (DamagedIdRoute.PUT handlePrismaError id now b db).2).
      rewrite <- Hde in He'. rewrite <- Hde.
      rewrite (IH _ d _ Hd He'). cbn [stock add_stock length].
      f_equal. rewrite Hdq. lia.
  - intros _ now.
    destruct (PUT_completed_step id now b db existing e Hs Hq Hex He) as (-> & _).
    done.
Qed.

(** C7, as the code has it.  No transition is refused.  Whenever an
    update of an existing record is accepted (answered 200), the stored
    status is the one the body names, whatever the record's current
    status, or the old one when the body names none.  And a validated
    update is accepted whatever the current and the requested status:
    all it takes is that the quantity, when the body carries one, fits
    the INTEGER column, and, for a completion, that the equipment
    exists. *)
Theorem PUT_damaged_sets_requested_status
    (id : string) (now : Z) (b : update.t) (db : DB) (existing : DamagedEquipment) :
  damagedEquipment db !! id = Some existing ->
  let out := DamagedIdRoute.PUT handlePrismaError id now b db in
  (status out.1 = 200 ->
   exists d, damagedEquipment out.2 !! id = Some d
             /\ repairStatus d = default (repairStatus existing) (update.repairStatus b))
  /\ (DamagedIdRoute.UpdateDamagedEquipmentSchema_safeParse b = true ->
      quantity_fits b = true ->
      (update.repairStatus b = Some completed ->
       is_Some (equipments db !! dmg_equipmentId existing)) ->
      status out.1 = 200).
Proof.
  intros Hex out.
  destruct (DamagedIdRoute.UpdateDamagedEquipmentSchema_safeParse b) eqn:Hparse;
    cycle 1.
  { split; [|done]. intros Hst. exfalso. revert Hst.
    unfold out, DamagedIdRoute.PUT, try_catch. rewrite Hparse. done. }
  pose proof (PUT_damaged_outcome id now b db Hparse) as Hout. fold out in Hout.
  cbv zeta in Hout. rewrite Hex in Hout.
  pose proof (prisma_catch_not_2xx
                "Terjadi kesalahan saat mengupdate equipment rusak") as Hcatch.
  assert (forall d0 : DB,
            (status out.1, out.2)
            = (if quantity_fits b
               then (200, set_damagedEquipment
                            (<[id := apply_updateData (updateData_of now b) existing]>
                               (damagedEquipment d0)) d0)
               else (status (prisma_catch handlePrismaError
                               "Terjadi kesalahan saat mengupdate equipment rusak"
                               UnknownRequestError), d0)) ->
            (status out.1 = 200 ->
             exists d, damagedEquipment out.2 !! id = Some d
                       /\ repairStatus d
                          = default (repairStatus existing) (update.repairStatus b))
            /\ (quantity_fits b = true -> status out.1 = 200))
    as Hfin.
  { intros d0 Heq. destruct (quantity_fits b).
    - injection Heq as Hst ->. split; [|done]. intros _. cbn.
      rewrite lookup_insert_eq. eexists. split; [reflexivity|]. done.
    - injection Heq as Hst _. split; [|done]. intros H200.
      rewrite H200 in Hst. by destruct (Hcatch UnknownRequestError). }
  destruct (update.repairStatus b) as [[]|] eqn:Hs.
  - destruct (Hfin _ Hout) as [H1 H2]. split; [exact H1|]. intros _ Hfits _. by apply H2.
  - destruct (Hfin _ Hout) as [H1 H2]. split; [exact H1|]. intros _ Hfits _. by apply H2.
  - destruct (equipments db !! dmg_equipmentId existing) as [e|] eqn:He.
    + destruct (Hfin _ Hout) as [H1 H2]. split; [exact H1|].
      intros _ Hfits _. by apply H2.
    + injection Hout as Hst _. split.
      * intros H200. rewrite H200 in Hst.
        by destruct (Hcatch (PrismaError "P2025")).
      * intros _ _ Hsome. destruct Hsome as [e' He']; [done|]. discriminate.
  - destruct (Hfin _ Hout) as [H1 H2]. split; [exact H1|]. intros _ Hfits _. by apply H2.
Qed.

(** A report followed by its completion: the stock ends above where it
    started, by the reported quantity. *)
Lemma report_then_repair (newId : string) (t0 t1 : Z) (b : report.t) (db : DB)
    (e : Equipment) :
  DamagedRoute.DamagedEquipmentSchema_safeParse b = true ->
  equipments db !! report.equipmentId b = Some e ->
  report.quantity b <= stock e ->
  damagedEquipment db !! newId = None ->
  let db1 := (DamagedRoute.POST handlePrismaError newId t0 b db).2 in
  let db2 := (DamagedIdRoute.PUT handlePrismaError newId t1
                (example.set_status completed) db1).2 in
  stock <$> equipments db1 !! report.equipmentId b = Some (stock e)
  /\ stock <$> equipments db2 !! report.equipmentId b
     = Some (stock e + report.quantity b).
Proof.
  intros Hparse He Hq Hfresh db1 db2.
  pose proof (POST_damaged_outcome newId t0 b db Hparse) as Hout.
  rewrite He, Hfresh in Hout.
  destruct (Z.ltb_spec (stock e) (report.quantity b)); [lia|].
  assert (equipments db1 = equipments db) as Heqs by (unfold db1; by rewrite Hout).
  assert (damagedEquipment db1 !! newId = Some (reported t0 b)) as Hd.
  { unfold db1. rewrite Hout. cbn. by rewrite lookup_insert_eq. }
  split; [by rewrite Heqs, He|].
  destruct (PUT_completed_step newId t1 (example.set_status completed) db1
              (reported t0 b) e eq_refl eq_refl Hd) as [Hst _].
  { cbn. by rewrite Heqs. }
  cbn in Hst. unfold db2. by rewrite Hst.
Qed.
End damaged.

(** C4 fails as stated.  The stock write and the write of the record are
    two calls with no transaction around them, and the schema puts no
    upper bound on [quantity].  A completion that also sets the quantity
    to 3000000000 passes validation; the stock of the mixer goes from 5
    to 7; the write of the record is then refused because the quantity
    does not fit the INTEGER column.  The request is answered 500 and the
    record is neither completed nor given a [repairedAt]. *)
Theorem PUT_damaged_completion_not_recorded :
  let out := DamagedIdRoute.PUT example.no_handler "d1" 1 example.too_many
               example.db_reported in
  DamagedIdRoute.UpdateDamagedEquipmentSchema_safeParse example.too_many = true
  /\ update.repairStatus example.too_many = Some completed
  /\ damagedEquipment example.db_reported !! "d1" = Some (reported 0 example.broken)
  /\ stock <$> equipments example.db_reported !! "e1" = Some 5
  /\ status out.1 = 500
  /\ stock <$> equipments out.2 !! "e1" = Some 7
  /\ repairStatus <$> damagedEquipment out.2 !! "d1" = Some pending
  /\ repairedAt <$> damagedEquipment out.2 !! "d1" = Some None.
Proof. vm_compute. repeat split. Qed.

(** C3.  The claim fails on the code: the report handler checks the stock
    but does not take the damaged quantity out of it, while completion
    adds the quantity.  Reporting two of five mixers as damaged leaves the
    stock at 5; completing the repair raises it to 7. *)
Theorem report_then_repair_inflates_stock :
  let reported := DamagedRoute.POST example.no_handler "d1" 0 example.broken example.db0 in
  let repaired := DamagedIdRoute.PUT example.no_handler "d1" 1
                    (example.set_status completed) reported.2 in
  stock <$> equipments example.db0 !! "e1" = Some 5
  /\ status reported.1 = 201
  /\ stock <$> equipments reported.2 !! "e1" = Some 5
  /\ status repaired.1 = 200
  /\ repairStatus <$> damagedEquipment repaired.2 !! "d1" = Some completed
  /\ stock <$> equipments repaired.2 !! "e1" = Some 7.
Proof. vm_compute. repeat split. Qed.

(** C7, as stated, fails: the completed record "d1" is sent back to
    pending by an update that is answered 200. *)
Lemma repair_status_chain_not_enforced :
  ~ (forall (handlePrismaError : Exn -> option PrismaErrorInfo)
            (id : string) (now : Z) (b : update.t) (db : DB) (d d' : DamagedEquipment),
        damagedEquipment db !! id = Some d ->
        status (DamagedIdRoute.PUT handlePrismaError id now b db).1 = 200 ->
        damagedEquipment (DamagedIdRoute.PUT handlePrismaError id now b db).2 !! id = Some d' ->
        repairStatus d' = repairStatus d
        \/ successor (repairStatus d) = Some (repairStatus d')).
Proof.
  intros H.
  pose proof (H example.no_handler "d1" 2 (example.set_status pending) example.db_repaired)
    as H'.
  vm_compute in H'.
  destruct (H' _ _ eq_refl eq_refl eq_refl) as [Heq|Heq]; discriminate Heq.
Qed.

(** ** The authentication wrapper *)

Section auth.
Variable JWT_SECRET : option string.
Variable jwtVerify : string -> string -> option Auth.JWTPayload.

Let verifyToken := Auth.verifyToken JWT_SECRET jwtVerify.
Let unauthorized := json (Text "Unauthorized - Please login") 401.

(** C8, as the code has it.  The wrapper answers 401 and leaves the
    handler alone when the cookie is absent or empty, when the token
    does not verify, or when the verified payload has no userId or the
    userId 0; in every other case it returns what the handler returns
    for the user of the payload. *)
Theorem withAuth_guard {World : Type}
    (handler : Auth.NextRequest -> Auth.user.t -> World -> Response * World)
    (request : Auth.NextRequest) (w : World) :
  let cookie := Auth.cookies request !! "jwt-access-token" in
  let rejected :=
    cookie = None
    \/ cookie = Some ""
    \/ (exists token, cookie = Some token /\ verifyToken token = None)
    \/ (exists token p, cookie = Some token /\ verifyToken token = Some p
                        /\ (Auth.userId p = None \/ Auth.userId p = Some 0)) in
  let accepted (u : Auth.user.t) :=
    exists token p, cookie = Some token /\ token <> "" /\ verifyToken token = Some p
                    /\ Auth.userId p = Some (Auth.user.userId u)
                    /\ Auth.user.userId u <> 0
                    /\ Auth.user.email u = Auth.email p
                    /\ Auth.user.role u = Auth.role p in
  (rejected -> Auth.withAuth JWT_SECRET jwtVerify handler request w = (unauthorized, w))
  /\ (forall u, accepted u ->
                Auth.withAuth JWT_SECRET jwtVerify handler request w = handler request u w)
  /\ (rejected \/ exists u, accepted u).
Proof.
  intros cookie rejected accepted.
  unfold Auth.withAuth, Auth.authenticateRequest.
  fold verifyToken. fold cookie.
  split; [|split].
  - intros [Hc|[Hc|[(token & Hc & Hv)|(token & p & Hc & Hv & Hu)]]]; rewrite Hc.
    + done.
    + done.
    + destruct (min1 token); cbn [negb]; [by rewrite Hv | done].
    + destruct (min1 token); cbn [negb]; [|done]. rewrite Hv.
      by destruct Hu as [-> | ->].
  - intros [uid em ro] (token & p & Hc & Hne & Hv & Hu & Hz & Hem & Hro).
    cbn in Hu, Hz, Hem, Hro. subst em ro. rewrite Hc.
    destruct token as [|c token]; [done|]. cbn [min1 negb].
    rewrite Hv, Hu. by destruct (Z.eqb_spec uid 0).
  - unfold rejected, accepted. clear rejected accepted. clearbody cookie.
    destruct cookie as [token|]; [|left; by left].
    destruct token as [|c token]; [left; right; by left|].
    destruct (verifyToken (String c token)) as [p|] eqn:Hv;
      [|left; right; right; left; eauto].
    destruct (Auth.userId p) as [uid|] eqn:Hu;
      [|left; right; right; right; eauto 6].
    destruct (Z.eqb_spec uid 0) as [->|Hz];
      [left; right; right; right; eauto 6|].
    right. exists {| Auth.user.userId := uid; Auth.user.email := Auth.email p;
                     Auth.user.role := Auth.role p |}.
    exists (String c token), p. cbn. repeat split; done.
Qed.
End auth.

(** C8, as stated, fails: a token that verifies and whose payload carries
    userId 0 is answered 401; the handler is not called with that id. *)
Lemma withAuth_rejects_userId_zero :
  ~ (forall (JWT_SECRET : option string)
            (jwtVerify : string -> string -> option Auth.JWTPayload)
            (handler : Auth.NextRequest -> Auth.user.t -> unit -> Response * unit)
            (request : Auth.NextRequest) (token : string) (p : Auth.JWTPayload) (uid : Z),
        Auth.cookies request !! "jwt-access-token" = Some token ->
        Auth.verifyToken JWT_SECRET jwtVerify token = Some p ->
        Auth.userId p = Some uid ->
        Auth.withAuth JWT_SECRET jwtVerify handler request tt
        = handler request {| Auth.user.userId := uid; Auth.user.email := Auth.email p;
                             Auth.user.role := Auth.role p |} tt).
Proof.
  intros H.
  specialize (H (Some "secret") (fun _ _ => Some (example.payload 0)) example.ok_handler
                example.request "token" (example.payload 0) 0 eq_refl eq_refl eq_refl).
  vm_compute in H. discriminate H.
Qed.

(** ** The theorems at work on the example inventory *)

(** Reserving two of the five mixers. *)
Lemma POST_event_reserves_stock_witness :
  EventsRoute.EventSchema (example.gig (Some example.two_mixers))
  = Some (example.gig_validated (Some example.two_mixers))
  /\ events example.db0 !! "ev1" = None
  /\ rows_of "ev1" example.db0 = []
  /\ Forall (in_stock example.db0) example.two_mixers
  /\ NoDup (map item.equipmentId example.two_mixers)
  /\ status (EventsRoute.POST "ev1" (example.gig (Some example.two_mixers)) example.db0).1 = 201
  /\ equipmentEvent example.db1 = map (row "ev1") example.two_mixers
  /\ stock <$> equipments example.db1 !! "e1" = Some 3.
Proof.
  assert (h1 : EventsRoute.EventSchema (example.gig (Some example.two_mixers))
               = Some (example.gig_validated (Some example.two_mixers))) by reflexivity.
  assert (h2 : body.equipments (example.gig (Some example.two_mixers))
               = Some example.two_mixers) by reflexivity.
  assert (h3 : events example.db0 !! "ev1" = None) by reflexivity.
  assert (h4 : Forall (in_stock example.db0) example.two_mixers).
  { repeat constructor. vm_compute. discriminate. }
  assert (h5 : rows_of "ev1" example.db0 = []) by reflexivity.
  assert (h6 : NoDup (map item.equipmentId example.two_mixers)).
  { apply NoDup_singleton. }
  destruct (proj1 (POST_event_reserves_stock "ev1" _ _ _ example.db0 h1 h2 h3 h5 h4) h6)
    as (Hst & _ & Hrows & Hstock & _).
  split; [exact h1|]. split; [exact h3|]. split; [exact h5|]. split; [exact h4|].
  split; [exact h6|]. split; [exact Hst|].
  unfold example.db1. split; [rewrite Hrows | rewrite Hstock]; reflexivity.
Defined.

(** Asking for six mixers when five are in stock. *)
Lemma POST_event_rejects_atomically_witness :
  Exists (unavailable example.db0) example.six_mixers
  /\ status (EventsRoute.POST "ev1" (example.gig (Some example.six_mixers)) example.db0).1 = 400
  /\ (EventsRoute.POST "ev1" (example.gig (Some example.six_mixers)) example.db0).2 = example.db0.
Proof.
  assert (h1 : body.equipments (example.gig (Some example.six_mixers))
               = Some example.six_mixers) by reflexivity.
  assert (h2 : Exists (unavailable example.db0) example.six_mixers).
  { left. vm_compute. reflexivity. }
  split; [exact h2|].
  exact (POST_event_rejects_atomically "ev1" _ _ example.db0 h1 h2).
Defined.


(** Reporting two mixers as damaged. *)
Lemma POST_damaged_report_witness :
  DamagedRoute.DamagedEquipmentSchema_safeParse example.broken = true
  /\ (let out := DamagedRoute.POST example.no_handler "d1" 0 example.broken example.db0 in
      status out.1 = 201
      /\ repairStatus <$> damagedEquipment out.2 !! "d1" = Some pending
      /\ equipments out.2 = equipments example.db0).
Proof.
  assert (h1 : DamagedRoute.DamagedEquipmentSchema_safeParse example.broken = true)
    by reflexivity.
  destruct (POST_damaged_report example.no_handler "d1" 0 example.broken example.db0 h1)
    as (_ & _ & Hok & Hsucc).
  assert (Hst : status (DamagedRoute.POST example.no_handler "d1" 0 example.broken
                          example.db0).1 = 201).
  { apply (Hok example.mixer); [reflexivity | vm_compute; discriminate | reflexivity]. }
  destruct (Hsucc Hst) as (Hd & _ & Heq & _).
  split; [exact h1|]. split; [exact Hst|]. split; [|exact Heq].
  rewrite Hd, lookup_insert_eq. reflexivity.
Defined.

(** Completing the repair of the reported mixers. *)
Lemma PUT_damaged_completed_restores_stock_witness :
  damagedEquipment example.db_reported !! "d1" = Some (reported 0 example.broken)
  /\ equipments example.db_reported !! "e1" = Some example.mixer
  /\ (let out := DamagedIdRoute.PUT example.no_handler "d1" 1
                   (example.set_status completed) example.db_reported in
      status out.1 = 200
      /\ stock <$> equipments out.2 !! "e1" = Some 7
      /\ repairedAt <$> damagedEquipment out.2 !! "d1" = Some (Some 1)).
Proof.
  assert (h1 : DamagedIdRoute.UpdateDamagedEquipmentSchema_safeParse
                 (example.set_status completed) = true) by reflexivity.
  assert (h2 : damagedEquipment example.db_reported !! "d1"
               = Some (reported 0 example.broken)) by reflexivity.
  assert (h3 : equipments example.db_reported
                 !! dmg_equipmentId (reported 0 example.broken)
               = Some example.mixer) by reflexivity.
  assert (h4 : update.repairStatus (example.set_status completed) = Some completed)
    by reflexivity.
  assert (h5 : quantity_fits (example.set_status completed) = true) by reflexivity.
  destruct (PUT_damaged_completed_restores_stock example.no_handler "d1" 1 _
              example.db_reported _ _ h1 h5 h2 h3 h4)
    as (Hst & _ & Hstock & d & Hd & _ & Ht & _).
  split; [exact h2|]. split; [exact h3|]. split; [exact Hst|]. split; [exact Hstock|].
  rewrite Hd. cbn. by rewrite Ht.
Defined.

(** Three more completion requests on the record that is already
    completed: the stock goes from 7 to 13. *)
Lemma repeated_completion_adds_stock_witness :
  repairStatus <$> damagedEquipment example.db_repaired !! "d1" = Some completed
  /\ stock <$> equipments example.db_repaired !! "e1" = Some 7
  /\ stock <$> equipments (repeat_PUT example.no_handler "d1"
                             (example.set_status completed) [2; 3; 4] example.db_repaired)
                 !! "e1"
     = Some 13.
Proof.
  assert (h1 : update.repairStatus (example.set_status completed) = Some completed)
    by reflexivity.
  assert (h2 : update.quantity (example.set_status completed) = None) by reflexivity.
  assert (h3 : damagedEquipment example.db_repaired !! "d1"
               = Some (apply_updateData (updateData_of 1 (example.set_status completed))
                         (reported 0 example.broken))) by reflexivity.
  assert (h4 : equipments example.db_repaired
                 !! dmg_equipmentId
                      (apply_updateData (updateData_of 1 (example.set_status completed))
                         (reported 0 example.broken))
               = Some (add_stock 2 example.mixer)) by reflexivity.
  split; [reflexivity|]. split; [reflexivity|].
  exact (proj1 (repeated_completion_adds_stock example.no_handler "d1" _ [2; 3; 4]
                  example.db_repaired _ _ h1 h2 h3 h4)).
Defined.

(** Sending the completed record back to pending. *)
Lemma PUT_damaged_sets_requested_status_witness :
  repairStatus <$> damagedEquipment example.db_repaired !! "d1" = Some completed
  /\ (let out := DamagedIdRoute.PUT example.no_handler "d1" 2
                   (example.set_status pending) example.db_repaired in
      status out.1 = 200
      /\ repairStatus <$> damagedEquipment out.2 !! "d1" = Some pending).
Proof.
  assert (h1 : DamagedIdRoute.UpdateDamagedEquipmentSchema_safeParse
                 (example.set_status pending) = true) by reflexivity.
  assert (h2 : damagedEquipment example.db_repaired !! "d1"
               = Some (apply_updateData (updateData_of 1 (example.set_status completed))
                         (reported 0 example.broken))) by reflexivity.
  assert (h3 : update.repairStatus (example.set_status pending) = Some completed ->
               is_Some (equipments example.db_repaired
                          !! dmg_equipmentId
                               (apply_updateData
                                  (updateData_of 1 (example.set_status completed))
                                  (reported 0 example.broken)))) by discriminate.
  assert (h4 : quantity_fits (example.set_status pending) = true) by reflexivity.
  split; [reflexivity|].
  destruct (PUT_damaged_sets_requested_status example.no_handler "d1" 2
              (example.set_status pending) example.db_repaired _ h2) as (Hstored & Hok).
  pose proof (Hok h1 h4 h3) as Hst.
  destruct (Hstored Hst) as (d & Hd & Hs).
  split; [exact Hst|]. rewrite Hd. cbn. by rewrite Hs.
Defined.

(** * Further properties of the handlers *)

(** ** Conservation of equipment across the event handlers *)

Lemma reserved_app (eid : string) (l1 l2 : list EquipmentEvent) :
  reserved eid (l1 ++ l2) = reserved eid l1 + reserved eid l2.
Proof. apply sum_for_app. Qed.

Lemma reserved_partition (eid id : string) (rows : list EquipmentEvent) :
  reserved eid rows
  = reserved eid (filter (fun r => eventId r = id) rows)
    + reserved eid (filter (fun r => eventId r <> id) rows).
Proof.
  induction rows as [|r rows IH]; [done|].
  rewrite !filter_cons.
  destruct (decide (eventId r = id)) as [Heq|Hne].
  - rewrite decide_False by (intros H; by apply H).
    unfold reserved in *. rewrite !sum_for_cons, IH. lia.
  - rewrite decide_True by done.
    unfold reserved in *. rewrite !sum_for_cons, IH. lia.
Qed.

(** The transaction of the create handler, when it returns. *)
Lemma POST_tx_spec (newId : string) (v : validated.t) (db db' : DB) event :
  EventsRoute.POST_tx newId v db = (Ok event, db') ->
  events db !! newId = None
  /\ (forall eid, equipments db' !! eid
                  = add_stock (- requested eid (requested_list v)) <$> equipments db !! eid)
  /\ equipmentEvent db' = equipmentEvent db ++ map (row newId) (requested_list v)
  /\ is_Some (events db' !! newId)
  /\ (forall k, k <> newId -> events db' !! k = events db !! k)
  /\ damagedEquipment db' = damagedEquipment db
  /\ Forall (in_stock db) (requested_list v).
Proof.
  intros Hrun.
  destruct (events db !! newId) as [ev|] eqn:Hfresh.
  { unfold EventsRoute.POST_tx, bind at 1, prisma.events_create in Hrun.
    rewrite Hfresh in Hrun. discriminate. }
  rewrite POST_tx_unfold in Hrun by done.
  set (db1 := set_events _ db) in Hrun.
  assert (forall db2, events db2 = events db1 ->
            is_Some (events db2 !! newId)
            /\ (forall k, k <> newId -> events db2 !! k = events db !! k)) as Hevs.
  { intros db2 ->. cbn. rewrite lookup_insert_eq. split; [eauto|].
    intros k Hk. by rewrite lookup_insert_ne. }
  assert (validated.equipments v = Some [] \/ validated.equipments v = None ->
          db' = db1 /\ requested_list v = []) as Hempty.
  { unfold requested_list. intros [Heq|Heq]; rewrite Heq in *; cbn in Hrun;
      inversion Hrun; by subst. }
  destruct (validated.equipments v) as [[|it items]|] eqn:Heq.
  - destruct Hempty as [-> ->]; [by left|]. destruct (Hevs db1 eq_refl) as [? ?].
    cbn [map]. rewrite app_nil_r. repeat split; try done.
    intros eid. by rewrite add_stock_0_fmap.
  - clear Hempty. unfold requested_list. rewrite Heq. cbn [default].
    unfold bind at 1 in Hrun.
    destruct (reserve newId (it :: items) db1) as [[[]|e] db2] eqn:Hres; [|discriminate].
    inversion Hrun; subst.
    apply reserve_spec in Hres as (Hall & Hst & Hev & Hrows & Hdmg & _).
    destruct (Hevs db' Hev) as [? ?].
    repeat split; try done.
  - destruct Hempty as [-> ->]; [by right|]. destruct (Hevs db1 eq_refl) as [? ?].
    cbn [map]. rewrite app_nil_r. repeat split; try done.
    intros eid. by rewrite add_stock_0_fmap.
Qed.

Lemma owned_conserved (eid : string) (db db' : DB) (dstock drows : Z) :
  equipments db' !! eid = add_stock dstock <$> equipments db !! eid ->
  reserved eid (equipmentEvent db') = reserved eid (equipmentEvent db) + drows ->
  dstock + drows = 0 ->
  owned eid db' = owned eid db.
Proof.
  intros Hst Hrows Hsum. unfold owned. rewrite Hst, Hrows.
  destruct (equipments db !! eid) as [e|]; [|done]. cbn. f_equal. lia.
Qed.

(** X1.  Creating an event never creates or loses equipment: whatever the
    request and whatever the answer, every equipment's stock plus the
    quantity the events hold of it is the same before and after. *)
Theorem POST_event_conserves_equipment
    (newId : string) (b : body.t) (db : DB) (eid : string) :
  owned eid (EventsRoute.POST newId b db).2 = owned eid db.
Proof.
  unfold EventsRoute.POST, try_catch, EventsRoute.EventSchema_parse.
  destruct (EventsRoute.EventSchema b) as [v|]; [|done].
  unfold bind, ret, transaction.
  destruct (EventsRoute.POST_tx newId v db) as [[event|e] db'] eqn:Hrun; [|done].
  apply POST_tx_spec in Hrun as (_ & Hst & Hrows & _).
  cbn [snd]. eapply owned_conserved; [apply Hst| |].
  - rewrite Hrows, reserved_app, reserved_row. reflexivity.
  - lia.
Qed.

(** The update transaction when the body has no [equipments] key: only
    the event row is written. *)
Lemma PUT_tx_no_list (id : string) (v : validated.t) (ev : Event) (db : DB) :
  events db !! id = Some ev ->
  validated.equipments v = None ->
  exists event,
    EventIdRoute.PUT_tx id v db
    = (Ok event, set_events (<[id := updated_event v ev]> (events db)) db).
Proof.
  intros Hev Heq. unfold EventIdRoute.PUT_tx.
  unfold bind at 1. unfold prisma.events_update. rewrite Hev, Heq.
  eexists. reflexivity.
Qed.

(** What the update handler does to the database, in every case. *)
Lemma PUT_database (id : string) (b : body.t) (db : DB) :
  (EventIdRoute.PUT id b db).2 = db
  \/ exists v event,
       EventIdRoute.EventSchema b = Some v
       /\ is_Some (events db !! id)
       /\ EventIdRoute.PUT_tx id v db = (Ok event, (EventIdRoute.PUT id b db).2)
       /\ status (EventIdRoute.PUT id b db).1 = 200.
Proof.
  destruct (EventIdRoute.EventSchema b) as [v|] eqn:Hv.
  2:{ left. unfold EventIdRoute.PUT, try_catch, EventIdRoute.EventSchema_parse.
      by rewrite Hv. }
  destruct (events db !! id) as [ev|] eqn:Hev.
  2:{ left. unfold EventIdRoute.PUT, try_catch, EventIdRoute.EventSchema_parse.
      rewrite Hv. unfold bind, ret, prisma.events_findUnique. by rewrite Hev. }
  rewrite (PUT_outcome id b v db Hv) by eauto.
  destruct (EventIdRoute.PUT_tx id v db) as [[event|e] db'] eqn:Hrun; [|by left].
  right. exists v, event. cbn. eauto.
Qed.

(** X2.  Updating an event never creates or loses equipment: whatever the
    request and whatever the answer, every equipment's stock plus the
    quantity the events hold of it is the same before and after. *)
Theorem PUT_event_conserves_equipment (id : string) (b : body.t) (db : DB) (eid : string) :
  owned eid (EventIdRoute.PUT id b db).2 = owned eid db.
Proof.
  destruct (PUT_database id b db) as [-> | (v & event & Hv & [ev Hev] & Hrun & _)]; [done|].
  set (db' := (EventIdRoute.PUT id b db).2) in *.
  destruct (validated.equipments v) as [items|] eqn:Heq.
  - destruct (PUT_tx_spec id v items db db' event) as (Hst & Hrows & _); eauto.
    eapply owned_conserved; [apply Hst| |].
    + rewrite Hrows, reserved_app, reserved_row.
      rewrite (reserved_partition eid id (equipmentEvent db)).
      fold (rows_of id db).
      instantiate (1 := requested eid items - reserved eid (rows_of id db)). lia.
    + lia.
  - destruct (PUT_tx_no_list id v ev db Hev Heq) as [event' Hrun'].
    rewrite Hrun' in Hrun. injection Hrun as _ Hdb. by rewrite <- Hdb.
Qed.

(** The delete transaction, when it returns. *)
Lemma DELETE_tx_spec (id : string) (db db' : DB) :
  EventIdRoute.DELETE_tx id db = (Ok tt, db') ->
  (forall eid, equipments db' !! eid
               = add_stock (reserved eid (rows_of id db)) <$> equipments db !! eid)
  /\ equipmentEvent db' = filter (fun r => eventId r <> id) (equipmentEvent db)
  /\ events db' = delete id (events db)
  /\ damagedEquipment db' = damagedEquipment db.
Proof.
  unfold EventIdRoute.DELETE_tx, bind, prisma.equipmentEvent_findMany. intros Hrun.
  fold (rows_of id db) in Hrun.
  destruct (restore_stock (rows_of id db) db) as [[[]|e] db1] eqn:Hrest; [|discriminate].
  apply stock_loop_spec in Hrest as (Hst & Hev & Hrows & Hdmg).
  unfold prisma.events_delete in Hrun.
  destruct (events db1 !! id); [|discriminate].
  inversion Hrun; subst. cbn. by rewrite Hrows, Hev.
Qed.

(** X3.  Deleting an event through its own route never creates or loses
    equipment: whatever the answer, every equipment's stock plus the
    quantity the events hold of it is the same before and after. *)
Theorem DELETE_event_conserves_equipment (id : string) (db : DB) (eid : string) :
  owned eid (EventIdRoute.DELETE id db).2 = owned eid db.
Proof.
  unfold EventIdRoute.DELETE, try_catch, bind, ret, prisma.events_findUnique.
  destruct (events db !! id) as [ev|]; [|done].
  unfold transaction.
  destruct (EventIdRoute.DELETE_tx id db) as [[[]|e] db'] eqn:Hrun; [|done].
  apply DELETE_tx_spec in Hrun as (Hst & Hrows & _).
  cbn [snd]. eapply owned_conserved; [apply Hst| |].
  - rewrite Hrows. rewrite (reserved_partition eid id (equipmentEvent db)).
    fold (rows_of id db).
    instantiate (1 := - reserved eid (rows_of id db)). lia.
  - lia.
Qed.

(** ** Deleting and detaching *)

Lemma DB_eq (db db' : DB) :
  equipments db' = equipments db ->
  events db' = events db ->
  equipmentEvent db' = equipmentEvent db ->
  damagedEquipment db' = damagedEquipment db ->
  db' = db.
Proof. destruct db, db'; cbn. by intros -> -> -> ->. Qed.

Lemma DELETE_tx_runs (id : string) (db : DB) :
  is_Some (events db !! id) ->
  Forall (refers db) (rows_of id db) ->
  exists db', EventIdRoute.DELETE_tx id db = (Ok tt, db').
Proof.
  intros [ev Hev] Href.
  destruct (stock_loop_runs equipmentId (fun r => increment (quantity r))
              (rows_of id db) db Href) as [db1 Hrest].
  pose proof (stock_loop_spec _ _ _ _ _ Hrest) as (_ & Hevs & _).
  unfold EventIdRoute.DELETE_tx, bind, prisma.equipmentEvent_findMany, restore_stock.
  fold (rows_of id db). rewrite Hrest. unfold prisma.events_delete.
  rewrite Hevs, Hev. eauto.
Qed.

(** The delete handler in terms of its transaction. *)
Lemma DELETE_outcome (id : string) (db : DB) :
  EventIdRoute.DELETE id db
  = match events db !! id with
    | None => (json (Text "Event tidak ditemukan") 404, db)
    | Some _ =>
        match EventIdRoute.DELETE_tx id db with
        | (Ok _, db') => (json (Text "Event berhasil dihapus") 200, db')
        | (Throw _, _) => (json (Text "Gagal menghapus event") 500, db)
        end
    end.
Proof.
  unfold EventIdRoute.DELETE, try_catch, bind, ret, prisma.events_findUnique.
  destruct (events db !! id); [|done]. unfold transaction.
  by destruct (EventIdRoute.DELETE_tx id db) as [[[]|err] db'].
Qed.

Lemma filter_others_id (id : string) (rows : list EquipmentEvent) :
  filter (fun r => eventId r = id) rows = [] ->
  filter (fun r => eventId r <> id) rows = rows.
Proof.
  induction rows as [|r rows IH]; [done|].
  rewrite !filter_cons. destruct (decide (eventId r = id)) as [Heq|Hne]; [done|].
  intros Hnone. rewrite decide_True by done. by rewrite IH.
Qed.

Lemma filter_others_new (id : string) (items : list item.t) :
  filter (fun r => eventId r <> id) (map (row id) items) = [].
Proof.
  induction items as [|it items IH]; [done|].
  cbn [map]. rewrite filter_cons, decide_False; [done|]. intros H. by apply H.
Qed.

(** X4.  The single-event delete handler answers 404 and changes nothing
    when the event does not exist.  When it exists (its rows referring to
    existing equipment) the answer is 200: the event is gone, exactly its
    rows are gone, every equipment gets back what the event held of it,
    and the other events and the damage reports are untouched. *)
Theorem DELETE_event_releases (id : string) (db : DB) :
  let out := EventIdRoute.DELETE id db in
  (events db !! id = None -> status out.1 = 404 /\ out.2 = db)
  /\ (is_Some (events db !! id) ->
      Forall (refers db) (rows_of id db) ->
      status out.1 = 200
      /\ events out.2 = delete id (events db)
      /\ equipmentEvent out.2 = filter (fun r => eventId r <> id) (equipmentEvent db)
      /\ (forall eid, equipments out.2 !! eid
                      = add_stock (reserved eid (rows_of id db)) <$> equipments db !! eid)
      /\ damagedEquipment out.2 = damagedEquipment db).
Proof.
  intros out. unfold out. rewrite DELETE_outcome. split.
  - by intros ->.
  - intros Hev Href. destruct (DELETE_tx_runs id db Hev Href) as [db' Hrun].
    destruct Hev as [ev ->]. rewrite Hrun. cbn [fst snd status json].
    apply DELETE_tx_spec in Hrun as (Hst & Hrows & Hevs & Hdmg). done.
Qed.

(** X5.  Creating an event (the list naming each equipment once, as the
    unique index on the rows asks) and deleting it through its own route
    brings the whole database back: the delete is answered 200 and stock,
    events, reservation rows and damage reports are exactly as before the
    create. *)
Theorem create_then_delete_restores_database
    (newId : string) (b : body.t) (v : validated.t) (items : list item.t) (db : DB) :
  EventsRoute.EventSchema b = Some v ->
  body.equipments b = Some items ->
  NoDup (map item.equipmentId items) ->
  events db !! newId = None ->
  rows_of newId db = [] ->
  Forall (in_stock db) items ->
  let created := EventsRoute.POST newId b db in
  let deleted := EventIdRoute.DELETE newId created.2 in
  status created.1 = 201 /\ status deleted.1 = 200 /\ deleted.2 = db.
Proof.
  intros Hv Hitems Hnd Hfresh Hnone Hall created deleted.
  destruct (POST_commits newId b v items db Hv Hitems Hfresh Hnone Hnd Hall)
    as (event & db1 & Hout & Hrun & _).
  apply POST_tx_spec in Hrun as (_ & Hst & Hrows & Hev & Hevs & Hdmg & _).
  assert (requested_list v = items) as Hlist.
  { unfold requested_list. by rewrite (EventSchema_equipments _ _ Hv), Hitems. }
  rewrite Hlist in *. clear Hlist.
  subst deleted created. rewrite Hout. cbn [fst snd status json_data].
  split; [done|].
  assert (rows_of newId db1 = map (row newId) items) as Hmine.
  { unfold rows_of in *. by rewrite Hrows, filter_app, Hnone, rows_of_new. }
  rewrite DELETE_outcome. destruct Hev as [ev Hev]. rewrite Hev.
  destruct (DELETE_tx_runs newId db1) as [db2 Hdel]; [eauto| |].
  { rewrite Hmine. apply Forall_fmap, Forall_forall. intros it Hit.
    unfold refers, compose. cbn. rewrite Hst.
    rewrite Forall_forall in Hall.
    destruct (in_stock_is_Some db it (Hall it Hit)) as [e ->]. cbn. eauto. }
  rewrite Hdel. cbn [fst snd status json]. split; [done|].
  apply DELETE_tx_spec in Hdel as (Hst2 & Hrows2 & Hevs2 & Hdmg2).
  apply DB_eq.
  - apply map_eq. intros eid.
    rewrite Hst2, Hmine, reserved_row, Hst, <- option_fmap_compose.
    destruct (equipments db !! eid) as [e|]; [|done]. cbn.
    by rewrite add_stock_add, Z.add_opp_diag_l, add_stock_0.
  - rewrite Hevs2. apply map_eq. intros k.
    destruct (decide (k = newId)) as [->|Hk].
    + by rewrite lookup_delete_eq.
    + rewrite lookup_delete_ne by done. by apply Hevs.
  - unfold rows_of in Hnone.
    by rewrite Hrows2, Hrows, filter_app, filter_others_new, app_nil_r, filter_others_id.
  - by rewrite Hdmg2.
Qed.

(** ** Updating an event: the remaining cases *)

(** X6.  An update whose body has no [equipments] key touches no
    reservation: for a body that validates and an existing event the
    answer is 200, stock, rows and damage reports stay as they are, the
    other events too, and the event takes the body's title, description,
    date and location, and its status only when the body names one. *)
Theorem PUT_event_without_list
    (id : string) (b : body.t) (v : validated.t) (ev : Event) (db : DB) :
  EventIdRoute.EventSchema b = Some v ->
  body.equipments b = None ->
  events db !! id = Some ev ->
  let out := EventIdRoute.PUT id b db in
  status out.1 = 200
  /\ equipments out.2 = equipments db
  /\ equipmentEvent out.2 = equipmentEvent db
  /\ damagedEquipment out.2 = damagedEquipment db
  /\ events out.2 = <[id := updated_event v ev]> (events db)
  /\ event_status (updated_event v ev)
     = match body.status b with
       | Some s => Some s
       | None => event_status ev
       end.
Proof.
  intros Hv Hnone Hev out.
  pose proof (EventSchema_put_equipments _ _ Hv) as Heq. rewrite Hnone in Heq.
  destruct (PUT_tx_no_list id v ev db Hev Heq) as [event Hrun].
  unfold out. rewrite (PUT_outcome id b v db Hv) by eauto. rewrite Hrun.
  cbn. repeat split; try done.
  unfold EventIdRoute.EventSchema in Hv.
  destruct (_ && _); [|discriminate].
  destruct (body.date b); [|discriminate]. by inversion Hv.
Qed.

(** X7.  An update with the empty list detaches all equipment: it is
    answered 200, the event stays but holds no row any more, and every
    stock is what deleting the event would have made it. *)
Theorem PUT_event_empty_list_detaches
    (id : string) (b : body.t) (v : validated.t) (db : DB) :
  EventIdRoute.EventSchema b = Some v ->
  body.equipments b = Some [] ->
  is_Some (events db !! id) ->
  Forall (refers db) (rows_of id db) ->
  let out := EventIdRoute.PUT id b db in
  status out.1 = 200
  /\ is_Some (events out.2 !! id)
  /\ rows_of id out.2 = []
  /\ equipmentEvent out.2 = equipmentEvent (EventIdRoute.DELETE id db).2
  /\ equipments out.2 = equipments (EventIdRoute.DELETE id db).2.
Proof.
  intros Hv Hitems Hev Href out.
  pose proof (EventSchema_put_equipments _ _ Hv) as Heq. rewrite Hitems in Heq.
  destruct (PUT_tx_runs id v [] db Hev Heq Href) as (event & db' & Hrun);
    [done | apply NoDup_nil_2 |].
  destruct (DELETE_tx_runs id db Hev Href) as [db2 Hdel].
  unfold out. rewrite (PUT_outcome id b v db Hv Hev), Hrun, DELETE_outcome.
  destruct Hev as [ev Hev]. rewrite Hev, Hdel. cbn [fst snd status json json_data].
  pose proof (PUT_tx_spec id v [] db db' event) as (Hst & Hrows & _); eauto.
  apply DELETE_tx_spec in Hdel as (Hst2 & Hrows2 & _).
  cbn [map] in Hrows. rewrite app_nil_r in Hrows.
  split; [done|]. split.
  { destruct (PUT_tx_unfold id v [] ev db Hev Heq) as [ev' Hunf].
    rewrite Hunf in Hrun. unfold bind at 1 in Hrun. unfold bind at 1 in Hrun.
    destruct (restore_stock (rows_of id db) _) as [[[]|e] db3] eqn:Hrest; [|discriminate].
    apply stock_loop_spec in Hrest as (_ & Hev3 & _).
    cbn in Hrun. inversion Hrun; subst. rewrite Hev3. cbn.
    rewrite lookup_insert_eq. eauto. }
  split; [unfold rows_of; by rewrite Hrows, rows_of_others|].
  split; [by rewrite Hrows, Hrows2|].
  apply map_eq. intros eid. rewrite Hst, Hst2.
  change (requested eid []) with 0. by rewrite Z.sub_0_r.
Qed.

(** X8.  The update handler changes the database only when it answers
    200.  A body that fails validation is answered 400, an unknown event
    404, and a list with an entry that names no equipment, or asks for
    more than the stock once the event's old rows are given back, 400:
    in all these cases the old rows, the stock and the event are as
    before. *)
Theorem PUT_event_rejects_atomically (id : string) (b : body.t) (db : DB) :
  let out := EventIdRoute.PUT id b db in
  (status out.1 <> 200 -> out.2 = db)
  /\ (EventIdRoute.EventSchema b = None -> status out.1 = 400)
  /\ (is_Some (EventIdRoute.EventSchema b) -> events db !! id = None -> status out.1 = 404)
  /\ (forall items,
        is_Some (events db !! id) ->
        body.equipments b = Some items ->
        Exists (fun it => ~ available_for db (rows_of id db) it) items ->
        status out.1 = 400).
Proof.
  intros out. split; [|split; [|split]].
  - intros Hst. destruct (PUT_database id b db) as [Hdb | (v & event & _ & _ & _ & H200)];
      [exact Hdb | contradiction].
  - intros Hv. unfold out, EventIdRoute.PUT, try_catch, EventIdRoute.EventSchema_parse.
    by rewrite Hv.
  - intros [v Hv] Hev.
    unfold out, EventIdRoute.PUT, try_catch, EventIdRoute.EventSchema_parse.
    rewrite Hv. unfold bind, ret, prisma.events_findUnique. by rewrite Hev.
  - intros items Hev Hitems Hex.
    destruct (EventIdRoute.EventSchema b) as [v|] eqn:Hv.
    2:{ unfold out, EventIdRoute.PUT, try_catch, EventIdRoute.EventSchema_parse.
        by rewrite Hv. }
    pose proof (EventSchema_put_equipments _ _ Hv) as Heq. rewrite Hitems in Heq.
    unfold out. rewrite (PUT_outcome id b v db Hv Hev).
    destruct (EventIdRoute.PUT_tx id v db) as [[event|e] db'] eqn:Hrun; [|done].
    exfalso.
    destruct (PUT_tx_spec id v items db db' event Hev Heq Hrun)
      as (_ & _ & _ & _ & Hall & _).
    apply Exists_exists in Hex as (it & Hit & Hnot).
    rewrite Forall_forall in Hall. by apply Hnot, Hall.
Qed.

(** ** Splitting the id list of the bulk delete *)

Lemma split_on_cons (sep c : ascii) (s : string) :
  split_on sep (String c s)
  = if Ascii.eqb c sep then EmptyString :: split_on sep s
    else match split_on sep s with
         | w :: ws => String c w :: ws
         | [] => [String c EmptyString]
         end.
Proof. reflexivity. Qed.

Lemma split_on_nonempty (sep : ascii) (s : string) : split_on sep s <> [].
Proof.
  destruct s as [|c s]; [done|]. rewrite split_on_cons.
  destruct (Ascii.eqb c sep); [done|]. by destruct (split_on sep s).
Qed.

Lemma split_comma_split_on (s : string) : split_comma s = split_on "," s.
Proof.
  induction s as [|c s IH]; [done|].
  cbn [split_comma]. rewrite split_on_cons, IH. done.
Qed.

Lemma join_cons (sep : ascii) (w : string) (ws : list string) :
  ws <> [] -> join sep (w :: ws) = String.append w (String sep (join sep ws)).
Proof. by destruct ws. Qed.

Lemma split_on_join (sep : ascii) (s : string) : join sep (split_on sep s) = s.
Proof.
  induction s as [|c s IH]; [done|].
  rewrite split_on_cons. pose proof (split_on_nonempty sep s) as Hne.
  destruct (Ascii.eqb_spec c sep) as [->|Hc].
  - rewrite join_cons by done. by rewrite IH.
  - destruct (split_on sep s) as [|w ws]; [done|].
    destruct ws as [|w' ws].
    + cbn [join] in *. by rewrite IH.
    + rewrite join_cons by done. rewrite join_cons in IH by done.
      by rewrite <- IH.
Qed.

Lemma split_on_no_sep (sep : ascii) (s : string) :
  Forall (fun w => occurs sep w = false) (split_on sep s).
Proof.
  induction s as [|c s IH]; [by repeat constructor|].
  rewrite split_on_cons. pose proof (split_on_nonempty sep s) as Hne.
  destruct (Ascii.eqb_spec c sep) as [->|Hc].
  - by constructor.
  - destruct (split_on sep s) as [|w ws]; [done|].
    apply Forall_cons in IH as [Hw Hws]. constructor; [|done].
    cbn. rewrite Hw, orb_false_r. by apply Ascii.eqb_neq.
Qed.

Lemma split_on_sep_free (sep : ascii) (w : string) :
  occurs sep w = false -> split_on sep w = [w].
Proof.
  induction w as [|c w IH]; [done|].
  cbn [occurs]. intros [Hc Hw]%orb_false_elim.
  rewrite split_on_cons, Hc, IH; done.
Qed.

Lemma split_on_append (sep : ascii) (w s : string) :
  occurs sep w = false ->
  split_on sep (String.append w (String sep s)) = w :: split_on sep s.
Proof.
  induction w as [|c w IH]; intros Hocc.
  - change (String.append "" (String sep s)) with (String sep s).
    rewrite split_on_cons, Ascii.eqb_refl. done.
  - cbn [occurs] in Hocc. apply orb_false_elim in Hocc as [Hc Hw].
    change (String.append (String c w) (String sep s))
      with (String c (String.append w (String sep s))).
    rewrite split_on_cons, Hc, IH by done. done.
Qed.

Lemma join_split_on (sep : ascii) (parts : list string) :
  parts <> [] ->
  Forall (fun w => occurs sep w = false) parts ->
  split_on sep (join sep parts) = parts.
Proof.
  induction parts as [|w ws IH]; [done|]. intros _ Hall.
  apply Forall_cons in Hall as [Hw Hws].
  destruct ws as [|w' ws].
  - cbn. by apply split_on_sep_free.
  - rewrite join_cons by done. rewrite split_on_append by done.
    by rewrite IH.
Qed.

(** X9.  [split(",")] as the bulk delete uses it: the parts are never an
    empty list and contain no comma; joining them with commas gives the
    parameter back; and a non-empty list of comma-free ids, joined with
    commas, is split into exactly those ids. *)
Theorem split_comma_join (s : string) (ids : list string) :
  split_comma s <> []
  /\ Forall (fun w => occurs "," w = false) (split_comma s)
  /\ join "," (split_comma s) = s
  /\ (ids <> [] -> Forall (fun w => occurs "," w = false) ids ->
      split_comma (join "," ids) = ids).
Proof.
  rewrite !split_comma_split_on.
  split; [apply split_on_nonempty|].
  split; [apply split_on_no_sep|].
  split; [apply split_on_join|].
  intros Hne Hall. by apply join_split_on.
Qed.

(** ** DELETE /api/events (bulk) *)

(** X10.  The bulk delete answers 400 only when the [ids] parameter is
    absent, and then changes nothing.  With the parameter present, even
    empty, it answers 200 and reports as deleted the number of ids
    given, whether or not they exist; it removes exactly the listed
    events and their rows, and leaves stock and damage reports alone.  When
    none of the ids is an event (and no row refers to one), the database
    is unchanged although the answer is still 200. *)
Theorem bulk_DELETE_outcome (ids : option string) (db : DB) :
  let out := EventsRoute.DELETE ids db in
  (ids = None -> status out.1 = 400 /\ out.2 = db)
  /\ (forall s, ids = Some s ->
        status out.1 = 200
        /\ message out.1 = EventsDeleted (length (split_comma s))
        /\ (forall k, events out.2 !! k
                      = if decide (k ∈ split_comma s) then None else events db !! k)
        /\ equipmentEvent out.2
           = filter (fun r => eventId r ∉ split_comma s) (equipmentEvent db)
        /\ equipments out.2 = equipments db
        /\ damagedEquipment out.2 = damagedEquipment db
        /\ ((forall k, k ∈ split_comma s -> events db !! k = None) ->
            Forall (fun r => eventId r ∉ split_comma s) (equipmentEvent db) ->
            out.2 = db)).
Proof.
  intros out. split; [by intros ->|].
  intros s ->. unfold out, EventsRoute.DELETE, try_catch.
  pose proof (split_on_nonempty "," s) as Hne. rewrite <- split_comma_split_on in Hne.
  destruct (split_comma s) as [|k0 ks] eqn:Hs; [done|].
  cbn [length Nat.eqb]. unfold bind, ret, prisma.events_deleteMany. cbn.
  assert (forall k, filter (fun kv : string * Event => kv.1 ∉ k0 :: ks) (events db) !! k
                    = if decide (k ∈ k0 :: ks) then None else events db !! k) as Hlook.
  { intros k. case_decide as Hk.
    - apply map_lookup_filter_None. right. intros ev _ Hnot. by apply Hnot.
    - destruct (events db !! k) as [ev|] eqn:Hev.
      + by apply map_lookup_filter_Some.
      + apply map_lookup_filter_None. by left. }
  repeat split; try done.
  intros Hunknown Hrows. apply DB_eq; cbn; try done.
  - apply map_eq. intros k. rewrite Hlook. case_decide; [|done].
    symmetry. by apply Hunknown.
  - clear -Hrows. induction Hrows as [|r rows Hr Hrows IH]; [done|].
    rewrite filter_cons, decide_True by done. by rewrite IH.
Qed.

(** ** The damage reports: deleting and editing *)

Section damaged_more.
Variable handlePrismaError : Exn -> option PrismaErrorInfo.

Lemma catch_400_not_200 (fallback : string) (err : Exn) :
status (DamagedIdRoute.catch_400 handlePrismaError fallback err) <> 200.
Proof.
unfold DamagedIdRoute.catch_400. by destruct (handlePrismaError err).
Qed.

(** X11.  Deleting a damage report answers 404 and changes nothing when
  the report does not exist, and otherwise answers 200 and removes the
  report.  In no case, and whatever the repair status of the report,
  does it write to the equipment: the stock is never given back (nor
  taken) by a delete. *)
Theorem DELETE_damaged_outcome (id : string) (db : DB) :
let out := DamagedIdRoute.DELETE handlePrismaError id db in
(damagedEquipment db !! id = None -> status out.1 = 404 /\ out.2 = db)
/\ (is_Some (damagedEquipment db !! id) ->
    status out.1 = 200 /\ damagedEquipment out.2 = delete id (damagedEquipment db))
/\ equipments out.2 = equipments db
/\ events out.2 = events db
/\ equipmentEvent out.2 = equipmentEvent db.
Proof.
intros out. unfold out, DamagedIdRoute.DELETE, try_catch.
unfold bind, ret, prisma.damagedEquipment_findUnique, prisma.damagedEquipment_delete.
destruct (damagedEquipment db !! id) as [d|] eqn:Hd.
- rewrite Hd. cbn. repeat split; try done; by intros [].
- cbn. repeat split; try done; by intros [].
Qed.

(** X12.  Filing a damage report and deleting it brings the whole
  database back: both requests succeed and every table, the stock
  included, is exactly as before the report. *)
Theorem report_then_delete_restores_database
  (newId : string) (now : Z) (b : report.t) (db : DB) (e : Equipment) :
DamagedRoute.DamagedEquipmentSchema_safeParse b = true ->
equipments db !! report.equipmentId b = Some e ->
report.quantity b <= stock e ->
damagedEquipment db !! newId = None ->
let filed := DamagedRoute.POST handlePrismaError newId now b db in
let deleted := DamagedIdRoute.DELETE handlePrismaError newId filed.2 in
status filed.1 = 201 /\ status deleted.1 = 200 /\ deleted.2 = db.
Proof.
intros Hparse He Hq Hfresh filed deleted.
pose proof (POST_damaged_outcome handlePrismaError newId now b db Hparse) as Hout.
rewrite He, Hfresh in Hout.
destruct (Z.ltb_spec (stock e) (report.quantity b)); [lia|].
subst deleted filed. rewrite Hout. cbn [fst snd status json_data].
split; [done|].
unfold DamagedIdRoute.DELETE, try_catch.
unfold bind, ret, prisma.damagedEquipment_findUnique, prisma.damagedEquipment_delete.
cbn. rewrite lookup_insert_eq. cbn. rewrite lookup_insert_eq. cbn.
split; [done|]. apply DB_eq; cbn; try done.
by apply delete_insert_id.
Qed.

Lemma PUT_damaged_invalid (id : string) (now : Z) (b : update.t) (db : DB) :
DamagedIdRoute.UpdateDamagedEquipmentSchema_safeParse b = false ->
DamagedIdRoute.PUT handlePrismaError id now b db
= (json (Text "Validation failed") 400, db).
Proof.
intros Hparse. unfold DamagedIdRoute.PUT, try_catch. by rewrite Hparse.
Qed.

(** The database after an update, in every case: unchanged; or the
  record rewritten, the stock moved first when the body asks for
  completed; or, when the write of the record is refused after the
  stock has moved, the stock moved and the record as it was. *)
Lemma PUT_damaged_database (id : string) (now : Z) (b : update.t) (db : DB) :
let out := DamagedIdRoute.PUT handlePrismaError id now b db in
(status out.1 <> 200 /\ out.2 = db)
\/ (exists existing e,
      DamagedIdRoute.UpdateDamagedEquipmentSchema_safeParse b = true
      /\ quantity_fits b = false
      /\ update.repairStatus b = Some completed
      /\ damagedEquipment db !! id = Some existing
      /\ equipments db !! dmg_equipmentId existing = Some e
      /\ status out.1 <> 200
      /\ out.2 = set_equipments
                   (<[dmg_equipmentId existing := add_stock (dmg_quantity existing) e]>
                      (equipments db)) db)
\/ exists existing db1,
     damagedEquipment db !! id = Some existing
     /\ quantity_fits b = true
     /\ status out.1 = 200
     /\ out.2 = set_damagedEquipment
                  (<[id := apply_updateData (updateData_of now b) existing]>
                     (damagedEquipment db1)) db1
     /\ (db1 = db /\ update.repairStatus b <> Some completed
         \/ exists e, update.repairStatus b = Some completed
                      /\ equipments db !! dmg_equipmentId existing = Some e
                      /\ db1 = set_equipments
                                 (<[dmg_equipmentId existing
                                    := add_stock (dmg_quantity existing) e]>
                                    (equipments db)) db).
Proof.
intros out.
destruct (DamagedIdRoute.UpdateDamagedEquipmentSchema_safeParse b) eqn:Hparse.
2:{ left. unfold out. by rewrite PUT_damaged_invalid. }
pose proof (PUT_damaged_outcome handlePrismaError id now b db Hparse) as Hout.
fold out in Hout. cbv zeta in Hout.
pose proof (prisma_catch_not_2xx handlePrismaError
              "Terjadi kesalahan saat mengupdate equipment rusak") as Hcatch.
destruct (damagedEquipment db !! id) as [existing|] eqn:Hex.
2:{ left. by injection Hout as -> ->. }
destruct (decide (update.repairStatus b = Some completed)) as [Hs|Hne].
- rewrite Hs in Hout.
  destruct (equipments db !! dmg_equipmentId existing) as [e|] eqn:He.
  + destruct (quantity_fits b) eqn:Hfits; injection Hout as Hst Hdb.
    * right. right. eexists existing, _.
      split; [done|]. split; [done|]. split; [done|]. split; [exact Hdb|].
      right. eauto.
    * right. left. exists existing, e. rewrite Hst.
      repeat split; try done. apply Hcatch.
  + left. injection Hout as Hst Hdb. rewrite Hst, Hdb. split; [|done].
    apply Hcatch.
- assert ((status out.1, out.2)
          = (if quantity_fits b
             then (200, set_damagedEquipment
                          (<[id := apply_updateData (updateData_of now b) existing]>
                             (damagedEquipment db)) db)
             else (status (prisma_catch handlePrismaError
                             "Terjadi kesalahan saat mengupdate equipment rusak"
                             UnknownRequestError), db))) as Heq.
  { rewrite Hout. by destruct (update.repairStatus b) as [[]|]. }
  clear Hout. destruct (quantity_fits b) eqn:Hfits; injection Heq as Hst Hdb.
  + right. right. exists existing, db. eauto 10.
  + left. rewrite Hst, Hdb. split; [|done]. apply Hcatch.
Qed.

(** X13.  An update of a damage report moves stock only when its body asks
  for completed: any other body leaves the equipment table as it is; and
  no update, whatever it asks, touches an equipment other than the
  report's, the events or the reservation rows. *)
Theorem PUT_damaged_stock_only_on_completion
  (id : string) (now : Z) (b : update.t) (db : DB) :
let out := DamagedIdRoute.PUT handlePrismaError id now b db in
(update.repairStatus b <> Some completed -> equipments out.2 = equipments db)
/\ (forall existing eid,
      damagedEquipment db !! id = Some existing ->
      eid <> dmg_equipmentId existing ->
      equipments out.2 !! eid = equipments db !! eid)
/\ events out.2 = events db
/\ equipmentEvent out.2 = equipmentEvent db.
Proof.
intros out.
destruct (PUT_damaged_database id now b db)
  as [[_ Hdb] | [(existing & e & _ & _ & Hs & Hex & He & _ & Hdb)
                | (existing & db1 & Hex & _ & _ & Hdb & Hcase)]];
  fold out in Hdb; rewrite Hdb.
- done.
- cbn. repeat split; try done.
  intros existing' eid Hex' Hne. rewrite Hex in Hex'. injection Hex' as <-.
  by rewrite lookup_insert_ne.
- destruct Hcase as [[-> Hs] | (e & Hs & He & ->)]; cbn.
  + done.
  + repeat split; try done.
    intros existing' eid Hex' Hne. rewrite Hex in Hex'. injection Hex' as <-.
    by rewrite lookup_insert_ne.
Qed.

(** X14.  What an update never changes in the damage reports: it creates
  and deletes none, it leaves every report but the addressed one as it
  is, and on the addressed one it keeps the equipment and the report
  time.  A repair time, once set, is never cleared: a report moved
  from completed back to pending keeps its [repairedAt]. *)
Theorem PUT_damaged_keeps_identity
  (id : string) (now : Z) (b : update.t) (db : DB) (id' : string) :
let out := DamagedIdRoute.PUT handlePrismaError id now b db in
match damagedEquipment db !! id' with
| None => damagedEquipment out.2 !! id' = None
| Some d =>
    exists d', damagedEquipment out.2 !! id' = Some d'
               /\ dmg_equipmentId d' = dmg_equipmentId d
               /\ reportedAt d' = reportedAt d
               /\ (is_Some (repairedAt d) -> is_Some (repairedAt d'))
               /\ (id' <> id -> d' = d)
end.
Proof.
intros out.
destruct (PUT_damaged_database id now b db)
  as [[_ Hdb] | [(existing & e & _ & _ & _ & _ & _ & _ & Hdb)
                | (existing & db1 & Hex & _ & _ & Hdb & Hcase)]];
  fold out in Hdb; rewrite Hdb.
- destruct (damagedEquipment db !! id') as [d|]; eauto 10.
- cbn. destruct (damagedEquipment db !! id') as [d|]; eauto 10.
- assert (damagedEquipment db1 = damagedEquipment db) as Hsame.
  { by destruct Hcase as [[-> _] | (e & _ & _ & ->)]. }
  cbn. rewrite Hsame.
  destruct (decide (id' = id)) as [->|Hne].
  + rewrite Hex, lookup_insert_eq. eexists. split; [done|].
    split; [done|]. split; [done|]. split; [|done].
    cbn. intros [t Ht]. rewrite Ht.
    destruct (update.repairStatus b) as [[]|]; eauto.
  + rewrite lookup_insert_ne by done.
    destruct (damagedEquipment db !! id') as [d|]; eauto 10.
Qed.

(** X15.  The update handler has no transaction around its two writes.
  An update that is refused (any answer but 200) leaves the database
  as it was, with one exception: a body that asks for completed and
  carries a quantity beyond the INTEGER column, sent to a report whose
  equipment exists.  There the stock has already been raised when the
  write of the report is refused: the answer is not 200, the raise
  stays, and the report is as before.  A body that fails validation is
  answered 400 and an unknown report 404. *)
Theorem PUT_damaged_failure_effect (id : string) (now : Z) (b : update.t) (db : DB) :
let out := DamagedIdRoute.PUT handlePrismaError id now b db in
let raised (existing : DamagedEquipment) (e : Equipment) :=
  set_equipments
    (<[dmg_equipmentId existing := add_stock (dmg_quantity existing) e]> (equipments db))
    db in
let half_done (existing : DamagedEquipment) (e : Equipment) :=
  DamagedIdRoute.UpdateDamagedEquipmentSchema_safeParse b = true
  /\ quantity_fits b = false
  /\ update.repairStatus b = Some completed
  /\ damagedEquipment db !! id = Some existing
  /\ equipments db !! dmg_equipmentId existing = Some e in
(status out.1 <> 200 ->
 out.2 = db \/ exists existing e, half_done existing e /\ out.2 = raised existing e)
/\ (forall existing e, half_done existing e ->
      status out.1 <> 200 /\ out.2 = raised existing e)
/\ (quantity_fits b = true -> status out.1 <> 200 -> out.2 = db)
/\ (DamagedIdRoute.UpdateDamagedEquipmentSchema_safeParse b = false -> status out.1 = 400)
/\ (DamagedIdRoute.UpdateDamagedEquipmentSchema_safeParse b = true ->
    damagedEquipment db !! id = None -> status out.1 = 404).
Proof.
intros out raised half_done.
pose proof (PUT_damaged_database id now b db) as Hcases. fold out in Hcases.
split; [|split; [|split; [|split]]].
- intros Hst.
  destruct Hcases as [[_ Hdb] | [(existing & e & Hp & Hf & Hs & Hex & He & _ & Hdb)
                                | (existing & db1 & _ & _ & H200 & _)]].
  + by left.
  + right. exists existing, e. by repeat split.
  + contradiction.
- intros existing e (Hp & Hf & Hs & Hex & He).
  pose proof (PUT_damaged_outcome handlePrismaError id now b db Hp) as Hout.
  fold out in Hout. cbv zeta in Hout. rewrite Hex, Hs, He, Hf in Hout.
  injection Hout as Hst Hdb. split; [|exact Hdb].
  rewrite Hst. apply prisma_catch_not_2xx.
- intros Hfits Hst.
  destruct Hcases as [[_ Hdb] | [(existing & e & _ & Hf & _)
                                | (existing & db1 & _ & _ & H200 & _)]].
  + exact Hdb.
  + congruence.
  + contradiction.
- intros Hparse. unfold out. by rewrite PUT_damaged_invalid.
- intros Hparse Hex.
  pose proof (PUT_damaged_outcome handlePrismaError id now b db Hparse) as Hout.
  fold out in Hout. cbv zeta in Hout. rewrite Hex in Hout. by injection Hout as -> _.
Qed.

(** X16.  The quantity given back on completion is the one the report
  holds when the request arrives.  For a quantity [q] that the schema
  accepts and the INTEGER column can hold: a single request that both
  changes the quantity to [q] and completes gives back the old
  quantity and stores [q]; changing the quantity first and completing
  in a second request gives back [q]. *)
Theorem PUT_damaged_quantity_then_completion
  (id : string) (t1 t2 : Z) (q : Z) (db : DB)
  (existing : DamagedEquipment) (e : Equipment) :
1 <= q <= 2147483647 ->
damagedEquipment db !! id = Some existing ->
equipments db !! dmg_equipmentId existing = Some e ->
let edit := {| update.quantity := Some q; update.description := None;
               update.repairStatus := None |} in
let complete := {| update.quantity := None; update.description := None;
                   update.repairStatus := Some completed |} in
let both := {| update.quantity := Some q; update.description := None;
               update.repairStatus := Some completed |} in
let at_once := (DamagedIdRoute.PUT handlePrismaError id t1 both db).2 in
let in_turn := (DamagedIdRoute.PUT handlePrismaError id t2 complete
                  (DamagedIdRoute.PUT handlePrismaError id t1 edit db).2).2 in
stock <$> equipments at_once !! dmg_equipmentId existing
= Some (stock e + dmg_quantity existing)
/\ dmg_quantity <$> damagedEquipment at_once !! id = Some q
/\ stock <$> equipments in_turn !! dmg_equipmentId existing = Some (stock e + q)
/\ dmg_quantity <$> damagedEquipment in_turn !! id = Some q.
Proof.
intros Hq Hex He edit complete both at_once in_turn.
assert (Hvalid : DamagedIdRoute.UpdateDamagedEquipmentSchema_safeParse both = true).
{ cbn. apply Z.leb_le. lia. }
assert (Hvalid' : DamagedIdRoute.UpdateDamagedEquipmentSchema_safeParse edit = true).
{ cbn. apply Z.leb_le. lia. }
assert (Hfits : int4 q = true).
{ unfold int4. apply andb_true_intro. split; apply Z.leb_le; lia. }
pose proof (PUT_damaged_outcome handlePrismaError id t1 both db Hvalid) as Hboth.
cbv zeta in Hboth. rewrite Hex in Hboth. cbn [update.repairStatus both] in Hboth.
rewrite He in Hboth.
change (quantity_fits both) with (int4 q) in Hboth. rewrite Hfits in Hboth.
injection Hboth as _ Hboth.
pose proof (PUT_damaged_outcome handlePrismaError id t1 edit db Hvalid') as Hedit.
cbv zeta in Hedit. rewrite Hex in Hedit. cbn [update.repairStatus edit] in Hedit.
change (quantity_fits edit) with (int4 q) in Hedit. rewrite Hfits in Hedit.
injection Hedit as _ Hedit.
split; [|split].
- unfold at_once. rewrite Hboth. cbn. by rewrite lookup_insert_eq.
- unfold at_once. rewrite Hboth. cbn. by rewrite lookup_insert_eq.
- set (db1 := (DamagedIdRoute.PUT handlePrismaError id t1 edit db).2) in *.
  assert (damagedEquipment db1 !! id
          = Some (apply_updateData (updateData_of t1 edit) existing)) as Hd.
  { rewrite Hedit. cbn. by rewrite lookup_insert_eq. }
  assert (equipments db1 !! dmg_equipmentId existing = Some e) as He1.
  { rewrite Hedit. by cbn. }
  destruct (PUT_completed_step handlePrismaError id t2 complete db1 _ e
              eq_refl eq_refl Hd He1) as (Hst & d & Hd' & Hdq & _).
  cbn in Hst, Hdq. unfold in_turn. rewrite Hst, Hd'. cbn. by rewrite Hdq.
Qed.
End damaged_more.

(** ** Authentication: the admin wrapper, the bearer header, the secret *)

Section auth_more.
Variable JWT_SECRET : option string.
Variable jwtVerify : string -> string -> option Auth.JWTPayload.

(** When [authenticateRequest] returns a user. *)
Lemma authenticateRequest_Some (request : Auth.NextRequest) (u : Auth.user.t) :
Auth.authenticateRequest JWT_SECRET jwtVerify request = Some u
<-> exists token p,
      Auth.cookies request !! "jwt-access-token" = Some token
      /\ token <> ""
      /\ Auth.verifyToken JWT_SECRET jwtVerify token = Some p
      /\ Auth.userId p = Some (Auth.user.userId u)
      /\ Auth.user.userId u <> 0
      /\ Auth.user.email u = Auth.email p
      /\ Auth.user.role u = Auth.role p.
Proof.
unfold Auth.authenticateRequest. split.
- destruct (Auth.cookies request !! "jwt-access-token") as [token|]; [|done].
  destruct token as [|c token]; [done|]. cbn [min1 negb].
  destruct (Auth.verifyToken _ _ _) as [p|] eqn:Hv; [|done].
  destruct (Auth.userId p) as [uid|] eqn:Hu; [|done].
  destruct (Z.eqb_spec uid 0) as [|Hz]; [done|].
  intros [= <-]. exists (String c token), p. by cbn.
- intros (token & p & -> & Hne & -> & Hu & Hz & Hem & Hro).
  destruct token as [|c token]; [done|]. cbn [min1 negb]. rewrite Hu.
  destruct (Z.eqb_spec (Auth.user.userId u) 0); [done|].
  destruct u as [uid em ro]. cbn in *. by subst.
Qed.

(** X17.  The admin wrapper calls the handler exactly for a request that
  authenticates (cookie not empty, token verifies, userId not 0) and
  whose payload has the role "admin"; a request that authenticates with
  any other role, or none, is answered 403, and one that does not
  authenticate 401.  In the last two cases the handler is not called. *)
Theorem withAdmin_guard {World : Type}
  (handler : Auth.NextRequest -> Auth.user.t -> World -> Response * World)
  (request : Auth.NextRequest) (w : World) :
let out := Auth.withAdmin JWT_SECRET jwtVerify handler request w in
let authenticated (u : Auth.user.t) :=
  exists token p,
    Auth.cookies request !! "jwt-access-token" = Some token
    /\ token <> ""
    /\ Auth.verifyToken JWT_SECRET jwtVerify token = Some p
    /\ Auth.userId p = Some (Auth.user.userId u)
    /\ Auth.user.userId u <> 0
    /\ Auth.user.email u = Auth.email p
    /\ Auth.user.role u = Auth.role p in
(forall u, authenticated u -> Auth.user.role u = Some "admin" ->
           out = handler request u w)
/\ (forall u, authenticated u -> Auth.user.role u <> Some "admin" ->
              out = (json (Text "Forbidden - Admin access required") 403, w))
/\ ((forall u, ~ authenticated u) ->
    out = (json (Text "Unauthorized - Please login") 401, w))
/\ (status out.1 = 401 \/ status out.1 = 403 \/ exists u, out = handler request u w).
Proof.
intros out authenticated. unfold out, Auth.withAdmin.
split; [|split; [|split]].
- intros u Hu Hrole. apply authenticateRequest_Some in Hu. by rewrite Hu, Hrole.
- intros u Hu Hrole. apply authenticateRequest_Some in Hu. rewrite Hu.
  destruct (Auth.user.role u) as [r|]; [|done].
  destruct (decide (r = "admin")) as [->|Hr]; [done|].
  destruct (String.eqb_spec r "admin") as [|_]; [done|].
  repeat (destruct r as [|[[] [] [] [] [] [] [] []] r]; try done).
- intros Hnone.
  destruct (Auth.authenticateRequest _ _ _) as [u|] eqn:Hu; [|done].
  apply authenticateRequest_Some in Hu. by destruct (Hnone u).
- destruct (Auth.authenticateRequest _ _ _) as [u|]; [|by left].
  destruct (Auth.user.role u) as [r|]; [|right; by left].
  destruct (decide (r = "admin")) as [->|Hr]; [right; right; eauto|].
  right. left.
  repeat (destruct r as [|[[] [] [] [] [] [] [] []] r]; try done).
Qed.
End auth_more.

(** X18.  Without a secret nobody gets in: when [JWT_SECRET] is unset or
    empty, no token verifies, whatever the verifier would say, so both
    wrappers answer 401 to every request without calling the handler,
    and the proxy lets no request through to a page that is not public. *)
Theorem no_secret_no_access
    (JWT_SECRET : option string)
    (jwtVerify : string -> string -> option Auth.JWTPayload)
    (String_of_number : Z -> string) :
  JWT_SECRET = None \/ JWT_SECRET = Some "" ->
  (forall token, Auth.verifyToken JWT_SECRET jwtVerify token = None)
  /\ (forall (handler : Auth.NextRequest -> Auth.user.t -> unit -> Response * unit) request,
        Auth.withAuth JWT_SECRET jwtVerify handler request tt
        = (json (Text "Unauthorized - Please login") 401, tt)
        /\ Auth.withAdmin JWT_SECRET jwtVerify handler request tt
           = (json (Text "Unauthorized - Please login") 401, tt))
  /\ (forall request h,
        Proxy.proxy JWT_SECRET jwtVerify String_of_number request = Proxy.next h ->
        Proxy.isPublicRoute (Proxy.pathname request) = true /\ h = None).
Proof.
  intros Hsecret.
  assert (forall token, Auth.verifyToken JWT_SECRET jwtVerify token = None) as Hv.
  { intros token. unfold Auth.verifyToken, Auth.getSecret.
    by destruct Hsecret as [-> | ->]. }
  assert (forall token, Proxy.verifyTokenInline JWT_SECRET jwtVerify token = None) as Hv'.
  { intros token. unfold Proxy.verifyTokenInline. by destruct Hsecret as [-> | ->]. }
  split; [exact Hv|]. split.
  - intros handler request.
    assert (Auth.authenticateRequest JWT_SECRET jwtVerify request = None) as Hauth.
    { unfold Auth.authenticateRequest.
      destruct (Auth.cookies request !! "jwt-access-token") as [token|]; [|done].
      destruct (min1 token); [|done]. cbn. by rewrite Hv. }
    unfold Auth.withAuth, Auth.withAdmin. by rewrite Hauth.
  - intros request h. unfold Proxy.proxy.
    destruct (String.eqb (Proxy.pathname request) "/").
    { destruct (Proxy.token request) as [t|]; [by rewrite Hv'|done]. }
    assert ((if Proxy.isAuthRoute (Proxy.pathname request)
             then match Proxy.token request with
                  | Some t => Proxy.verifyTokenInline JWT_SECRET jwtVerify t
                  | None => None
                  end
             else None) = None) as ->.
    { destruct (Proxy.isAuthRoute _); [|done].
      destruct (Proxy.token request) as [t|]; [apply Hv'|done]. }
    destruct (Proxy.isPublicRoute _); cbn [negb].
    + by intros [= <-].
    + destruct (Proxy.token request) as [t|]; [by rewrite Hv'|done].
Qed.

(** X19.  [extractToken] returns a token exactly for a header that is
    "Bearer", one space, and a token without a space (possibly empty);
    the token returned is that token.  Every other header, and an absent
    one, gives null. *)
Theorem extractToken_bearer (authHeader : option string) (t : string) :
  Auth.extractToken authHeader = Some t
  <-> authHeader = Some (String.append "Bearer " t) /\ occurs " " t = false.
Proof.
  unfold Auth.extractToken. split.
  - destruct authHeader as [h|]; [|done].
    destruct (min1 h); cbn [negb]; [|done].
    pose proof (split_on_join " " h) as Hjoin.
    pose proof (split_on_no_sep " " h) as Hfree.
    destruct (split_on " " h) as [|scheme [|token [|? ?]]]; try done.
    destruct (String.eqb_spec scheme "Bearer") as [->|]; [|done].
    intros [= ->]. split.
    + by rewrite <- Hjoin.
    + by apply Forall_cons in Hfree as [_ [Ht _]%Forall_cons].
  - intros [-> Hfree].
    change (String.append "Bearer " t) with (String.append "Bearer" (String " " t)).
    rewrite split_on_append by done. rewrite split_on_sep_free by done.
    done.
Qed.

(** ** The request proxy *)

Section proxy_props.
Variable JWT_SECRET : option string.
Variable jwtVerify : string -> string -> option Auth.JWTPayload.
Variable String_of_number : Z -> string.

Let proxy := Proxy.proxy JWT_SECRET jwtVerify String_of_number.
Let verifyTokenInline := Proxy.verifyTokenInline JWT_SECRET jwtVerify.
Let requestHeaders := Proxy.requestHeaders String_of_number.

Lemma isAuthRoute_public (pathname : string) :
Proxy.isAuthRoute pathname = Proxy.isPublicRoute pathname.
Proof. reflexivity. Qed.

(** The inline copy of the verification agrees with the library's. *)
Lemma verifyTokenInline_verifyToken (token : string) :
verifyTokenInline token = Auth.verifyToken JWT_SECRET jwtVerify token.
Proof.
unfold verifyTokenInline, Proxy.verifyTokenInline, Auth.verifyToken, Auth.getSecret.
destruct JWT_SECRET as [secret|]; [|done]. by destruct (min1 secret).
Qed.

Lemma token_Some (request : Proxy.NextRequest) (t : string) :
Proxy.token request = Some t
<-> Proxy.cookies request !! "jwt-access-token" = Some t /\ t <> "".
Proof.
unfold Proxy.token.
destruct (Proxy.cookies request !! "jwt-access-token") as [t'|];
  [destruct t' as [|c t']|]; cbn [min1].
- split; [done|]. by intros [[= <-] ?].
- split; [by intros [= <-]|]. by intros [[= <-] _].
- split; [done|]. by intros [? _].
Qed.

(** The proxy, case by case. *)
Lemma proxy_cases (request : Proxy.NextRequest) :
let pathname := Proxy.pathname request in
let session : option Auth.JWTPayload := Proxy.token request ≫= verifyTokenInline in
proxy request
= if String.eqb pathname "/" then
    match session with
    | Some _ => Proxy.redirect "/dashboard" None false
    | None => Proxy.redirect "/login" None false
    end
  else if Proxy.isPublicRoute pathname then
    match session with
    | Some _ => Proxy.redirect "/dashboard" None false
    | None => Proxy.next None
    end
  else
    match Proxy.token request, session with
    | None, _ => Proxy.redirect "/login" (Some pathname) false
    | Some _, None => Proxy.redirect "/login" None true
    | Some _, Some verified => Proxy.next (Some (requestHeaders request verified))
    end.
Proof.
cbv zeta. unfold proxy, Proxy.proxy. rewrite isAuthRoute_public.
fold verifyTokenInline. fold requestHeaders.
destruct (String.eqb _ "/").
- destruct (Proxy.token request) as [t|]; cbn; [|done].
  by destruct (verifyTokenInline t).
- destruct (Proxy.isPublicRoute _); cbn [negb].
  + destruct (Proxy.token request) as [t|]; cbn; [|done].
    by destruct (verifyTokenInline t).
  + destruct (Proxy.token request) as [t|]; cbn; [|done].
    by destruct (verifyTokenInline t).
Qed.

(** X20.  The proxy lets a request through only in two cases: the page is
  public (and then the headers are left alone), or the request carries
  a non-empty token that verifies (and then the route receives the
  headers built from the verified payload).  The root page is never
  let through. *)
Theorem proxy_lets_through_only_verified
  (request : Proxy.NextRequest) (h : option (gmap string string)) :
proxy request = Proxy.next h ->
Proxy.pathname request <> "/"
/\ (Proxy.isPublicRoute (Proxy.pathname request) = true /\ h = None
    \/ Proxy.isPublicRoute (Proxy.pathname request) = false
       /\ exists t verified,
            Proxy.cookies request !! "jwt-access-token" = Some t
            /\ t <> ""
            /\ verifyTokenInline t = Some verified
            /\ h = Some (requestHeaders request verified)).
Proof.
rewrite proxy_cases. cbv zeta.
destruct (String.eqb_spec (Proxy.pathname request) "/") as [|Hroot].
{ by destruct (_ ≫= _). }
intros Hnext. split; [done|].
destruct (Proxy.isPublicRoute _).
- left. destruct (_ ≫= _); [done|]. by injection Hnext as <-.
- right. split; [done|].
  destruct (Proxy.token request) as [t|] eqn:Ht; [|done]. cbn in Hnext.
  destruct (verifyTokenInline t) as [verified|] eqn:Hv; [|done].
  injection Hnext as <-. apply token_Some in Ht as [Hc Hne]. eauto 10.
Qed.

(** X21.  A visitor with a valid session is never sent to the login page.
  A redirect to /login means that no token of the request verifies; it
  carries a [callbackUrl], the page asked for, exactly when the page is
  protected and no token was sent, and it deletes the cookie exactly
  when the page is protected and a token was sent. *)
Theorem proxy_login_redirect
  (request : Proxy.NextRequest) (callbackUrl : option string) (deleteCookie : bool) :
proxy request = Proxy.redirect "/login" callbackUrl deleteCookie ->
let protected := negb (String.eqb (Proxy.pathname request) "/")
                 && negb (Proxy.isPublicRoute (Proxy.pathname request)) in
Proxy.token request ≫= verifyTokenInline = None
/\ callbackUrl = (if protected && bool_decide (Proxy.token request = None)
                  then Some (Proxy.pathname request) else None)
/\ deleteCookie = protected && bool_decide (is_Some (Proxy.token request)).
Proof.
rewrite proxy_cases. cbv zeta.
destruct (String.eqb (Proxy.pathname request) "/"); cbn [negb andb].
{ destruct (_ ≫= _); [done|]. by intros [= <- <-]. }
destruct (Proxy.isPublicRoute _); cbn [negb andb].
{ by destruct (_ ≫= _). }
destruct (Proxy.token request) as [t|]; cbn.
- destruct (verifyTokenInline t); [done|]. by intros [= <- <-].
- by intros [= <- <-].
Qed.

(** The headers built for the route, name by name. *)
Lemma requestHeaders_lookup
  (request : Proxy.NextRequest) (verified : Auth.JWTPayload) (k : string) :
let id_set :=
  match Auth.userId verified with
  | Some uid => if uid =? 0 then None else Some (String_of_number uid)
  | None => None
  end in
let role_set :=
  match Auth.role verified with
  | Some r => if min1 r then Some r else None
  | None => None
  end in
requestHeaders request verified !! k
= if decide (k = "x-user-role") then
    match role_set with
    | Some r => Some r
    | None => Proxy.headers request !! k
    end
  else if decide (k = "x-user-id") then
    match id_set with
    | Some v => Some v
    | None => Proxy.headers request !! k
    end
  else Proxy.headers request !! k.
Proof.
cbv zeta. unfold requestHeaders, Proxy.requestHeaders.
set (h1 := match Auth.userId verified with
           | Some uid => if uid =? 0 then _ else _
           | None => _
           end).
assert (h1 !! k
        = if decide (k = "x-user-id") then
            match match Auth.userId verified with
                  | Some uid => if uid =? 0 then None else Some (String_of_number uid)
                  | None => None
                  end with
            | Some v => Some v
            | None => Proxy.headers request !! k
            end
          else Proxy.headers request !! k) as Hh1.
{ unfold h1. destruct (Auth.userId verified) as [uid|]; [|by case_decide].
  destruct (uid =? 0); [by case_decide|].
  case_decide as Hk; [subst k; by rewrite lookup_insert_eq|].
  by rewrite lookup_insert_ne. }
clearbody h1.
destruct (decide (k = "x-user-role")) as [->|Hk].
- destruct (Auth.role verified) as [r|]; [|by rewrite Hh1].
  destruct (min1 r); [by rewrite lookup_insert_eq | by rewrite Hh1].
- destruct (Auth.role verified) as [r|]; [|by rewrite Hh1].
  destruct (min1 r); [by rewrite lookup_insert_ne | by rewrite Hh1].
Qed.

(** X22.  What the route receives from a request the proxy lets through
  with a verified payload: every header of the request, except that
  [x-user-id] is replaced by the payload's userId when that is not 0 and
  [x-user-role] by its role when that is not empty.  In particular, when
  the payload has no userId (or 0) an [x-user-id] header sent by the
  client reaches the route unchanged. *)
Theorem proxy_forwarded_headers
  (request : Proxy.NextRequest) (verified : Auth.JWTPayload) :
(forall k, k <> "x-user-id" -> k <> "x-user-role" ->
           requestHeaders request verified !! k = Proxy.headers request !! k)
/\ (forall uid, Auth.userId verified = Some uid -> uid <> 0 ->
                requestHeaders request verified !! "x-user-id"
                = Some (String_of_number uid))
/\ (Auth.userId verified = None \/ Auth.userId verified = Some 0 ->
    requestHeaders request verified !! "x-user-id"
    = Proxy.headers request !! "x-user-id")
/\ (forall r, Auth.role verified = Some r -> r <> "" ->
              requestHeaders request verified !! "x-user-role" = Some r)
/\ (Auth.role verified = None \/ Auth.role verified = Some "" ->
    requestHeaders request verified !! "x-user-role"
    = Proxy.headers request !! "x-user-role").
Proof.
split; [|split; [|split; [|split]]].
- intros k Hid Hrole. rewrite requestHeaders_lookup.
  by rewrite !decide_False.
- intros uid Hu Hz. rewrite requestHeaders_lookup.
  rewrite decide_False, decide_True by done. rewrite Hu.
  by destruct (Z.eqb_spec uid 0).
- intros Hu. rewrite requestHeaders_lookup.
  rewrite decide_False, decide_True by done.
  by destruct Hu as [-> | ->].
- intros r Hr Hne. rewrite requestHeaders_lookup.
  rewrite decide_True by done. rewrite Hr. by destruct r.
- intros Hr. rewrite requestHeaders_lookup.
  rewrite decide_True by done. by destruct Hr as [-> | ->].
Qed.

(** X23.  The proxy and the route wrapper agree on who is logged in, up
  to the userId: a request whose cookies [authenticateRequest] accepts
  is let through by the proxy on every protected page, with
  [x-user-id] set to that user's id; and a request the proxy lets
  through on a protected page is refused by [authenticateRequest] only
  when the verified payload has no userId or the userId 0. *)
Theorem proxy_agrees_with_authenticateRequest
  (request : Proxy.NextRequest) (api : Auth.NextRequest) :
Auth.cookies api = Proxy.cookies request ->
Proxy.pathname request <> "/" ->
Proxy.isPublicRoute (Proxy.pathname request) = false ->
(forall u, Auth.authenticateRequest JWT_SECRET jwtVerify api = Some u ->
           exists h, proxy request = Proxy.next (Some h)
                     /\ h !! "x-user-id" = Some (String_of_number (Auth.user.userId u)))
/\ (forall h, proxy request = Proxy.next h ->
              Auth.authenticateRequest JWT_SECRET jwtVerify api = None ->
              exists t verified,
                Proxy.token request = Some t
                /\ verifyTokenInline t = Some verified
                /\ (Auth.userId verified = None \/ Auth.userId verified = Some 0)).
Proof.
intros Hcookies Hroot Hprot. split.
- intros u Hu. apply authenticateRequest_Some in Hu
    as (t & p & Hc & Hne & Hv & Hid & Hz & _).
  rewrite Hcookies in Hc.
  assert (Proxy.token request = Some t) as Ht by (by apply token_Some).
  rewrite <- verifyTokenInline_verifyToken in Hv.
  rewrite proxy_cases. cbv zeta.
  destruct (String.eqb_spec (Proxy.pathname request) "/"); [done|].
  rewrite Hprot, Ht. cbn. rewrite Hv. eexists. split; [done|].
  rewrite requestHeaders_lookup.
  rewrite decide_False, decide_True by done. rewrite Hid.
  by destruct (Z.eqb_spec (Auth.user.userId u) 0).
- intros h Hnext Hnone.
  rewrite proxy_cases in Hnext. cbv zeta in Hnext.
  destruct (String.eqb_spec (Proxy.pathname request) "/"); [done|].
  rewrite Hprot in Hnext.
  destruct (Proxy.token request) as [t|] eqn:Ht; [|done]. cbn in Hnext.
  destruct (verifyTokenInline t) as [verified|] eqn:Hv; [|done].
  exists t, verified. split; [done|]. split; [done|].
  apply token_Some in Ht as [Hc Hne].
  rewrite verifyTokenInline_verifyToken in Hv.
  unfold Auth.authenticateRequest in Hnone. rewrite Hcookies, Hc in Hnone.
  destruct t as [|c t]; [done|]. cbn [min1 negb] in Hnone. rewrite Hv in Hnone.
  destruct (Auth.userId verified) as [uid|]; [|by left].
  destruct (Z.eqb_spec uid 0) as [Hz|]; [right; by rewrite Hz|done].
Qed.
End proxy_props.

(** ** Stock never goes negative *)

(** A list that names each equipment once and passes the stock check asks
    of no equipment more than it has. *)
Lemma requested_le_stock (db : DB) (items : list item.t) (eid : string) (e : Equipment) :
  NoDup (map item.equipmentId items) ->
  Forall (in_stock db) items ->
  equipments db !! eid = Some e ->
  0 <= stock e ->
  requested eid items <= stock e.
Proof.
  intros Hnd Hall He Hpos.
  destruct (decide (eid ∈ map item.equipmentId items)) as [Hin|Hnot].
  - apply list_elem_of_fmap in Hin as (it & -> & Hit).
    unfold requested. rewrite (sum_for_unique item.equipmentId item.quantity it items Hnd Hit).
    rewrite Forall_forall in Hall. specialize (Hall it Hit).
    unfold in_stock in Hall. by rewrite He in Hall.
  - unfold requested. by rewrite sum_for_absent.
Qed.

(** X24.  The stock check keeps the stock from going negative: when no
    stock is negative before a create request whose list names each
    equipment at most once, none is negative after it, whatever the
    answer. *)
Theorem POST_event_keeps_stock_nonnegative (newId : string) (b : body.t) (db : DB) :
  NoDup (map item.equipmentId (default [] (body.equipments b))) ->
  (forall eid e, equipments db !! eid = Some e -> 0 <= stock e) ->
  forall eid e, equipments (EventsRoute.POST newId b db).2 !! eid = Some e -> 0 <= stock e.
Proof.
  intros Hnd Hpos eid e'.
  unfold EventsRoute.POST, try_catch, EventsRoute.EventSchema_parse.
  destruct (EventsRoute.EventSchema b) as [v|] eqn:Hv; [|apply Hpos].
  unfold bind, ret, transaction.
  destruct (EventsRoute.POST_tx newId v db) as [[event|err] db'] eqn:Hrun; [|apply Hpos].
  apply POST_tx_spec in Hrun as (_ & Hst & _ & _ & _ & _ & Hall).
  unfold requested_list in *. rewrite (EventSchema_equipments _ _ Hv) in *.
  cbn [snd]. rewrite Hst.
  destruct (equipments db !! eid) as [e|] eqn:He; [|done].
  intros [= <-]. cbn.
  pose proof (requested_le_stock db _ eid e Hnd Hall He (Hpos _ _ He)). lia.
Qed.

Lemma reserved_nonneg (eid : string) (rows : list EquipmentEvent) :
  Forall (fun r => 0 <= quantity r) rows -> 0 <= reserved eid rows.
Proof.
  induction 1 as [|r rows Hr Hrows IH]; [done|].
  unfold reserved in *. rewrite sum_for_cons. case_decide; lia.
Qed.

(** X25.  The same holds of the update: when no stock is negative, the
    event's old rows hold no negative quantity and the new list names
    each equipment at most once, no stock is negative after the request,
    whatever the answer. *)
Theorem PUT_event_keeps_stock_nonnegative (id : string) (b : body.t) (db : DB) :
  NoDup (map item.equipmentId (default [] (body.equipments b))) ->
  Forall (fun r => 0 <= quantity r) (rows_of id db) ->
  (forall eid e, equipments db !! eid = Some e -> 0 <= stock e) ->
  forall eid e, equipments (EventIdRoute.PUT id b db).2 !! eid = Some e -> 0 <= stock e.
Proof.
  intros Hnd Hrows Hpos eid e'.
  destruct (PUT_database id b db) as [-> | (v & event & Hv & Hev & Hrun & _)];
    [apply Hpos|].
  set (db' := (EventIdRoute.PUT id b db).2) in *.
  pose proof (EventSchema_put_equipments _ _ Hv) as Heq.
  destruct (body.equipments b) as [items|] eqn:Hitems.
  - destruct (PUT_tx_spec id v items db db' event Hev Heq Hrun)
      as (Hst & _ & _ & _ & Hall & _).
    rewrite Hst. destruct (equipments db !! eid) as [e|] eqn:He; [|done].
    intros [= <-]. cbn.
    pose proof (reserved_nonneg eid _ Hrows) as Hres.
    pose proof (Hpos _ _ He) as He0.
    destruct (decide (eid ∈ map item.equipmentId items)) as [Hin|Hnot].
    + apply list_elem_of_fmap in Hin as (it & -> & Hit).
      unfold requested.
      rewrite (sum_for_unique item.equipmentId item.quantity it items Hnd Hit).
      rewrite Forall_forall in Hall. specialize (Hall it Hit).
      unfold available_for in Hall. rewrite He in Hall. lia.
    + unfold requested. rewrite sum_for_absent by done. lia.
  - destruct Hev as [ev Hev].
    destruct (PUT_tx_no_list id v ev db Hev Heq) as [event' Hrun'].
    rewrite Hrun' in Hrun. injection Hrun as _ Hdb. rewrite <- Hdb. apply Hpos.
Qed.

(** ** Creating an event without equipment *)

(** X26.  A create request with no [equipments] key, or with the empty
    list, only creates the event: for a body that validates and a fresh
    id the answer is 201, the event is stored with the body's fields and
    without a status of its own, and stock, reservation rows and damage
    reports are untouched. *)
Theorem POST_event_without_list
    (newId : string) (b : body.t) (v : validated.t) (db : DB) :
  EventsRoute.EventSchema b = Some v ->
  body.equipments b = None \/ body.equipments b = Some [] ->
  events db !! newId = None ->
  let out := EventsRoute.POST newId b db in
  status out.1 = 201
  /\ events out.2
     = <[newId := {| title := body.title b; description := body.description b;
                     date := validated.date v; location := body.location b;
                     event_status := None |}]> (events db)
  /\ body.date b = Some (validated.date v)
  /\ equipments out.2 = equipments db
  /\ equipmentEvent out.2 = equipmentEvent db
  /\ damagedEquipment out.2 = damagedEquipment db.
Proof.
  intros Hv Hnone Hfresh out.
  pose proof (EventSchema_equipments _ _ Hv) as Heq.
  assert (EventsRoute.POST_tx newId v db
          = prisma.events_findUnique_include newId
              (set_events (<[newId := {| title := validated.title v;
                                         description := validated.description v;
                                         date := validated.date v;
                                         location := validated.location v;
                                         event_status := None |}]> (events db)) db))
    as Hrun.
  { rewrite POST_tx_unfold by done. rewrite Heq.
    by destruct Hnone as [-> | ->]. }
  unfold out, EventsRoute.POST, try_catch, EventsRoute.EventSchema_parse.
  rewrite Hv. unfold bind, ret, transaction. rewrite Hrun.
  unfold prisma.events_findUnique_include. cbn.
  unfold EventsRoute.EventSchema in Hv.
  destruct (_ && _); [|discriminate].
  destruct (body.date b); [|discriminate]. by inversion Hv.
Qed.

(** ** Which pages are public *)

Lemma prefix_append (p s : string) :
  String.prefix p s = true <-> exists rest, s = String.append p rest.
Proof.
  revert s. induction p as [|c p IH]; intros s.
  - split; [|by destruct s]. intros _. by exists s.
  - destruct s as [|c' s]; cbn [String.prefix].
    + split; [done|]. by intros [rest ?].
    + destruct (ascii_dec c c') as [<-|Hne].
      * rewrite IH. split; intros [rest Hrest]; exists rest.
        -- by rewrite Hrest.
        -- by injection Hrest.
      * split; [done|]. intros [rest Hrest]. by injection Hrest.
Qed.

(** X27.  A page is public exactly when its path begins with the
    characters "/login" or "/register": the test is on the string, not on
    the path segment, so a path such as "/login-x" or "/registered/y" is
    public as well. *)
Theorem isPublicRoute_prefix (pathname : string) :
  Proxy.isPublicRoute pathname = true
  <-> exists rest, pathname = String.append "/login" rest
                   \/ pathname = String.append "/register" rest.
Proof.
  unfold Proxy.isPublicRoute, Proxy.publicRoutes. cbn [existsb].
  rewrite orb_false_r, orb_true_iff, !prefix_append. split.
  - intros [[rest ?] | [rest ?]]; exists rest; eauto.
  - intros [rest [? | ?]]; eauto.
Qed.

(** ** The further properties at work on the examples *)

(** Reserving two mixers for the gig and deleting the gig. *)
Lemma create_then_delete_restores_database_witness :
  EventsRoute.EventSchema (example.gig (Some example.two_mixers))
  = Some (example.gig_validated (Some example.two_mixers))
  /\ NoDup (map item.equipmentId example.two_mixers)
  /\ events example.db0 !! "ev1" = None
  /\ rows_of "ev1" example.db0 = []
  /\ Forall (in_stock example.db0) example.two_mixers
  /\ (EventIdRoute.DELETE "ev1" example.db1).2 = example.db0.
Proof.
  assert (h1 : EventsRoute.EventSchema (example.gig (Some example.two_mixers))
               = Some (example.gig_validated (Some example.two_mixers))) by reflexivity.
  assert (h2 : body.equipments (example.gig (Some example.two_mixers))
               = Some example.two_mixers) by reflexivity.
  assert (h3 : NoDup (map item.equipmentId example.two_mixers)) by apply NoDup_singleton.
  assert (h4 : events example.db0 !! "ev1" = None) by reflexivity.
  assert (h5 : rows_of "ev1" example.db0 = []) by reflexivity.
  assert (h6 : Forall (in_stock example.db0) example.two_mixers).
  { repeat constructor. vm_compute. discriminate. }
  split; [exact h1|]. split; [exact h3|]. split; [exact h4|]. split; [exact h5|].
  split; [exact h6|].
  exact (proj2 (proj2 (create_then_delete_restores_database "ev1" _ _ _ example.db0
                         h1 h2 h3 h4 h5 h6))).
Defined.

(** Renaming nothing and sending no list: the two mixers stay reserved. *)
Lemma PUT_event_without_list_witness :
  events example.db1 !! "ev1"
  = Some {| title := "Gig"; description := "Open air"; date := 1767225600000;
            location := "Hall"; event_status := None |}
  /\ (let out := EventIdRoute.PUT "ev1" (example.gig None) example.db1 in
      status out.1 = 200
      /\ equipments out.2 = equipments example.db1
      /\ equipmentEvent out.2 = equipmentEvent example.db1).
Proof.
  assert (h1 : EventIdRoute.EventSchema (example.gig None)
               = Some (example.gig_validated None)) by reflexivity.
  assert (h2 : body.equipments (example.gig None) = None) by reflexivity.
  assert (h3 : events example.db1 !! "ev1"
               = Some {| title := "Gig"; description := "Open air";
                         date := 1767225600000; location := "Hall";
                         event_status := None |}) by reflexivity.
  split; [exact h3|].
  destruct (PUT_event_without_list "ev1" _ _ _ example.db1 h1 h2 h3)
    as (Hst & Heqs & Hrows & _).
  split; [exact Hst|]. split; [exact Heqs | exact Hrows].
Defined.

(** Sending the empty list: the two mixers come back, the gig stays. *)
Lemma PUT_event_empty_list_detaches_witness :
  is_Some (events example.db1 !! "ev1")
  /\ Forall (refers example.db1) (rows_of "ev1" example.db1)
  /\ (let out := EventIdRoute.PUT "ev1" (example.gig (Some [])) example.db1 in
      status out.1 = 200
      /\ rows_of "ev1" out.2 = []
      /\ stock <$> equipments out.2 !! "e1" = Some 5).
Proof.
  assert (h1 : EventIdRoute.EventSchema (example.gig (Some []))
               = Some (example.gig_validated (Some []))) by reflexivity.
  assert (h2 : body.equipments (example.gig (Some [])) = Some []) by reflexivity.
  assert (h3 : is_Some (events example.db1 !! "ev1")) by (vm_compute; eauto).
  assert (h4 : Forall (refers example.db1) (rows_of "ev1" example.db1)).
  { vm_compute. repeat constructor. eauto. }
  split; [exact h3|]. split; [exact h4|].
  destruct (PUT_event_empty_list_detaches "ev1" _ _ example.db1 h1 h2 h3 h4)
    as (Hst & _ & Hrows & _ & Heqs).
  split; [exact Hst|]. split; [exact Hrows|].
  rewrite Heqs. reflexivity.
Defined.

(** Filing the report on two mixers and deleting it. *)
Lemma report_then_delete_restores_database_witness :
  DamagedRoute.DamagedEquipmentSchema_safeParse example.broken = true
  /\ equipments example.db0 !! "e1" = Some example.mixer
  /\ damagedEquipment example.db0 !! "d1" = None
  /\ (DamagedIdRoute.DELETE example.no_handler "d1" example.db_reported).2 = example.db0.
Proof.
  assert (h1 : DamagedRoute.DamagedEquipmentSchema_safeParse example.broken = true)
    by reflexivity.
  assert (h2 : equipments example.db0 !! report.equipmentId example.broken
               = Some example.mixer) by reflexivity.
  assert (h3 : report.quantity example.broken <= stock example.mixer)
    by (vm_compute; discriminate).
  assert (h4 : damagedEquipment example.db0 !! "d1" = None) by reflexivity.
  split; [exact h1|]. split; [exact h2|]. split; [exact h4|].
  exact (proj2 (proj2 (report_then_delete_restores_database example.no_handler
                         "d1" 0 _ example.db0 _ h1 h2 h3 h4))).
Defined.

(** Correcting the report to one mixer, at once with or before completion. *)
Lemma PUT_damaged_quantity_then_completion_witness :
  damagedEquipment example.db_reported !! "d1" = Some (reported 0 example.broken)
  /\ equipments example.db_reported !! "e1" = Some example.mixer
  /\ stock <$> equipments
       (DamagedIdRoute.PUT example.no_handler "d1" 1
          {| update.quantity := Some 1; update.description := None;
             update.repairStatus := Some completed |} example.db_reported).2 !! "e1"
     = Some 7
  /\ stock <$> equipments
       (DamagedIdRoute.PUT example.no_handler "d1" 2
          {| update.quantity := None; update.description := None;
             update.repairStatus := Some completed |}
          (DamagedIdRoute.PUT example.no_handler "d1" 1
             {| update.quantity := Some 1; update.description := None;
                update.repairStatus := None |} example.db_reported).2).2 !! "e1"
     = Some 6.
Proof.
  assert (h1 : 1 <= 1 <= 2147483647) by lia.
  assert (h2 : damagedEquipment example.db_reported !! "d1"
               = Some (reported 0 example.broken)) by reflexivity.
  assert (h3 : equipments example.db_reported
                 !! dmg_equipmentId (reported 0 example.broken)
               = Some example.mixer) by reflexivity.
  split; [exact h2|]. split; [exact h3|].
  destruct (PUT_damaged_quantity_then_completion example.no_handler "d1" 1 2 1
              example.db_reported _ _ h1 h2 h3) as (Hone & _ & Htwo & _).
  split; [exact Hone | exact Htwo].
Defined.

(** A server without secret, facing the token the verifier would accept. *)
Lemma no_secret_no_access_witness :
  sample.verifier 7 (Some "admin") "token" "" <> None
  /\ Auth.verifyToken None (sample.verifier 7 (Some "admin")) "token" = None.
Proof.
  split; [discriminate|].
  exact (proj1 (no_secret_no_access None (sample.verifier 7 (Some "admin")) sample.show
                  (or_introl eq_refl)) "token").
Defined.

(** The visit of the events page with a valid session. *)
Lemma proxy_lets_through_only_verified_witness :
  Proxy.proxy (Some "secret") (sample.verifier 7 (Some "admin")) sample.show sample.visit
  = Proxy.next (Some {[ "x-user-id" := "7"; "x-user-role" := "admin" ]})
  /\ Proxy.isPublicRoute (Proxy.pathname sample.visit) = false.
Proof.
  assert (h1 : Proxy.proxy (Some "secret") (sample.verifier 7 (Some "admin")) sample.show
                 sample.visit
               = Proxy.next (Some {[ "x-user-id" := "7"; "x-user-role" := "admin" ]}))
    by reflexivity.
  split; [exact h1|].
  destruct (proxy_lets_through_only_verified _ _ _ _ _ h1) as [_ [[Hpub _] | [Hprot _]]].
  - vm_compute in Hpub. discriminate Hpub.
  - exact Hprot.
Defined.

(** The same page asked for without a cookie. *)
Lemma proxy_login_redirect_witness :
  Proxy.proxy (Some "secret") (sample.verifier 7 (Some "admin")) sample.show
    sample.anonymous
  = Proxy.redirect "/login" (Some "/events") false
  /\ Proxy.token sample.anonymous
       ≫= Proxy.verifyTokenInline (Some "secret") (sample.verifier 7 (Some "admin"))
     = None.
Proof.
  assert (h1 : Proxy.proxy (Some "secret") (sample.verifier 7 (Some "admin")) sample.show
                 sample.anonymous
               = Proxy.redirect "/login" (Some "/events") false) by reflexivity.
  split; [exact h1|].
  exact (proj1 (proxy_login_redirect _ _ _ _ _ _ h1)).
Defined.

(** The session of user 7 before the proxy and before the wrapper. *)
Lemma proxy_agrees_with_authenticateRequest_witness :
  Proxy.pathname sample.visit <> "/"
  /\ Proxy.isPublicRoute (Proxy.pathname sample.visit) = false
  /\ exists h,
       Proxy.proxy (Some "secret") (sample.verifier 7 None) sample.show sample.visit
       = Proxy.next (Some h)
       /\ h !! "x-user-id" = Some "7".
Proof.
  assert (h1 : Auth.cookies {| Auth.cookies := Proxy.cookies sample.visit |}
               = Proxy.cookies sample.visit) by reflexivity.
  assert (h2 : Proxy.pathname sample.visit <> "/") by discriminate.
  assert (h3 : Proxy.isPublicRoute (Proxy.pathname sample.visit) = false) by reflexivity.
  split; [exact h2|]. split; [exact h3|].
  exact (proj1 (proxy_agrees_with_authenticateRequest (Some "secret")
                  (sample.verifier 7 None) sample.show sample.visit _ h1 h2 h3)
           {| Auth.user.userId := 7; Auth.user.email := None; Auth.user.role := None |}
           eq_refl).
Defined.

Lemma example_db0_equipments :
  equipments example.db0 = {[ "e1" := example.mixer ]}.
Proof. reflexivity. Qed.

Lemma example_db1_equipments :
  equipments example.db1 = {[ "e1" := add_stock (-2) example.mixer ]}.
Proof. reflexivity. Qed.

(** Five mixers, two asked for: three are left. *)
Lemma POST_event_keeps_stock_nonnegative_witness :
  (forall eid e, equipments example.db0 !! eid = Some e -> 0 <= stock e)
  /\ (forall eid e, equipments example.db1 !! eid = Some e -> 0 <= stock e).
Proof.
  assert (h1 : NoDup (map item.equipmentId
                        (default [] (body.equipments (example.gig (Some example.two_mixers))))))
    by apply NoDup_singleton.
  assert (h2 : forall eid e, equipments example.db0 !! eid = Some e -> 0 <= stock e).
  { intros eid e. rewrite example_db0_equipments.
    intros [_ <-]%lookup_singleton_Some. vm_compute. discriminate. }
  split; [exact h2|].
  exact (POST_event_keeps_stock_nonnegative "ev1" _ example.db0 h1 h2).
Defined.

(** Three mixers left and two held by the gig, three asked for. *)
Lemma PUT_event_keeps_stock_nonnegative_witness :
  Forall (fun r => 0 <= quantity r) (rows_of "ev1" example.db1)
  /\ (forall eid e,
        equipments (EventIdRoute.PUT "ev1" (example.gig (Some example.three_mixers))
                      example.db1).2 !! eid = Some e ->
        0 <= stock e).
Proof.
  assert (h1 : NoDup (map item.equipmentId
                        (default [] (body.equipments
                                       (example.gig (Some example.three_mixers))))))
    by apply NoDup_singleton.
  assert (h2 : Forall (fun r => 0 <= quantity r) (rows_of "ev1" example.db1)).
  { vm_compute. repeat constructor. discriminate. }
  assert (h3 : forall eid e, equipments example.db1 !! eid = Some e -> 0 <= stock e).
  { intros eid e. rewrite example_db1_equipments.
    intros [_ <-]%lookup_singleton_Some. vm_compute. discriminate. }
  split; [exact h2|].
  exact (PUT_event_keeps_stock_nonnegative "ev1" _ example.db1 h1 h2 h3).
Defined.

(** The gig created without any equipment. *)
Lemma POST_event_without_list_witness :
  events example.db0 !! "ev1" = None
  /\ (let out := EventsRoute.POST "ev1" (example.gig None) example.db0 in
      status out.1 = 201 /\ equipments out.2 = equipments example.db0).
Proof.
  assert (h1 : EventsRoute.EventSchema (example.gig None)
               = Some (example.gig_validated None)) by reflexivity.
  assert (h2 : body.equipments (example.gig None) = None
               \/ body.equipments (example.gig None) = Some []) by (left; reflexivity).
  assert (h3 : events example.db0 !! "ev1" = None) by reflexivity.
  split; [exact h3|].
  destruct (POST_event_without_list "ev1" _ _ example.db0 h1 h2 h3)
    as (Hst & _ & _ & Heqs & _).
  split; [exact Hst | exact Heqs].
Defined.
